(** * Interactive Multivariable Functions Explorer: a shallow embedding

    The program under study, [app.py], is a Streamlit script: one top-to-bottom
    run per user interaction.  It reads a function of two or three variables
    as text, turns it into a symbolic expression ([sympy.sympify]), fixes [z]
    when three variables are selected ([Expr.subs]), evaluates the result over
    a 60 x 60 grid ([sympy.lambdify] with the numpy back end), and shows one of
    four topics.

    The script is embedded as the function [app] over an explicit record of
    widget values; the calls it makes into the symbolic and numeric libraries
    are embedded as executable models of the fragment of those libraries that
    the script can reach:

    - floating-point numbers are the extended rationals they denote
      ([fval]); rounding, overflow and the sign of zero are not modelled, and
      the transcendental functions are an oracle ([NumLib]);
    - symbolic expressions are trees ([Expr]) built by constructors that
      perform the library's automatic evaluation for the listed rules; a
      result the model does not determine is the absorbing atom [Beyond];
    - every library call returns an [outcome]: a value, a raised exception,
      or [Unmodelled]. *)

From Stdlib Require Import QArith Qreduction Lqa ZArith Lia Bool List.
From Stdlib Require Import Strings.String Strings.Ascii.
Import ListNotations.

Set Implicit Arguments.

(* ===================================================================== *)
(** * Outcomes of library calls *)
(* ===================================================================== *)

(** The Python exceptions the script can meet. *)
Inductive exn : Type :=
| SyntaxError
| TypeError
| NameError
| ValueError.

Inductive outcome (A : Type) : Type :=
| Ok (a : A)
| Raise (e : exn)
| Unmodelled.

Arguments Ok {A} a.
Arguments Raise {A} e.
Arguments Unmodelled {A}.

Definition obind {A B} (o : outcome A) (k : A -> outcome B) : outcome B :=
  match o with
  | Ok a => k a
  | Raise e => Raise e
  | Unmodelled => Unmodelled
  end.

Declare Scope outcome_scope.
Delimit Scope outcome_scope with outcome.
Notation "x <- o ;; k" := (obind o (fun x => k))
  (at level 61, o at next level, right associativity) : outcome_scope.

Definition raises {A} (o : outcome A) : bool :=
  match o with Raise _ => true | _ => false end.

(* ===================================================================== *)
(** * Floating-point values *)
(* ===================================================================== *)

(** A float is the rational it denotes, an infinity, or NaN. *)
Inductive fval : Type :=
| Fin (q : Q)
| PInf
| NInf
| NaN.

Definition is_nan (v : fval) : bool :=
  match v with NaN => true | _ => false end.

Definition is_finite (v : fval) : bool :=
  match v with Fin _ => true | _ => false end.

(** [a <= b] on floats; every comparison with NaN is false. *)
Definition fleb (a b : fval) : bool :=
  match a, b with
  | NaN, _ | _, NaN => false
  | NInf, _ => true
  | _, PInf => true
  | Fin x, Fin y => Qle_bool x y
  | _, _ => false
  end.

Definition fsign (v : fval) : comparison :=
  match v with
  | Fin q => (0 ?= q)%Q
  | PInf => Lt
  | NInf => Gt
  | NaN => Eq
  end.

Definition fadd (a b : fval) : fval :=
  match a, b with
  | NaN, _ | _, NaN => NaN
  | PInf, NInf | NInf, PInf => NaN
  | PInf, _ | _, PInf => PInf
  | NInf, _ | _, NInf => NInf
  | Fin x, Fin y => Fin (Qred (x + y))
  end.

Definition finf_of (c : comparison) : fval :=
  match c with Lt => PInf | Gt => NInf | Eq => NaN end.

Definition cmp_mul (a b : comparison) : comparison :=
  match a, b with
  | Eq, _ | _, Eq => Eq
  | Lt, Lt | Gt, Gt => Lt
  | _, _ => Gt
  end.

Definition fmul (a b : fval) : fval :=
  match a, b with
  | NaN, _ | _, NaN => NaN
  | Fin x, Fin y => Fin (Qred (x * y))
  | _, _ => finf_of (cmp_mul (fsign a) (fsign b))
  end.

(** [b ** n] for a literal integer exponent [n]. *)
Definition fpow_int (b : fval) (n : Z) : fval :=
  if (n =? 0)%Z then Fin 1 else
  match b with
  | NaN => NaN
  | Fin q =>
      if (0 <? n)%Z then Fin (Qred (Qpower q n))
      else if Qeq_bool q 0 then PInf
      else Fin (Qred (Qpower q n))
  | PInf => if (0 <? n)%Z then PInf else Fin 0
  | NInf => if (0 <? n)%Z then (if Z.even n then PInf else NInf) else Fin 0
  end.

(* ===================================================================== *)
(** * The evaluation grid *)
(* ===================================================================== *)

(** [numpy.linspace start stop num] with the end point included: the samples
    are [start + k * step] for [step = (stop - start) / (num - 1)], and the
    last one is [stop] itself. *)
Definition linspace (start stop : Q) (num : nat) : list Q :=
  let step := (stop - start) / inject_Z (Z.of_nat (num - 1)) in
  map (fun k => if Nat.eqb (S k) num then Qred stop
                else Qred (start + inject_Z (Z.of_nat k) * step))
      (seq 0 num).

(** [numpy.meshgrid vals vals]: [X] repeats the samples along each row,
    [Y] holds one sample per row. *)
Definition meshgrid (xs ys : list Q) : list (list fval) * list (list fval) :=
  (map (fun _ => map Fin xs) ys,
   map (fun y => map (fun _ => Fin y) xs) ys).

Definition vals : list Q := linspace (-5) 5 60.
Definition X : list (list fval) := fst (meshgrid vals vals).
Definition Y : list (list fval) := snd (meshgrid vals vals).

(** Shape of a two-dimensional array: rows, and columns of the first row. *)
Definition shape (a : list (list fval)) : nat * nat :=
  (List.length a, match a with [] => 0 | r :: _ => List.length r end)%nat.

(* ===================================================================== *)
(** * Symbolic expressions *)
(* ===================================================================== *)

(** The function classes of [allowed_funcs] that stay function applications
    ([sqrt] is not one of them: the library turns [sqrt(a)] into
    [a ** (1/2)]). *)
Inductive Func : Type := Fsin | Fcos | Ftan | Fexp | Flog.

(** Expression trees.  [Num q false] is an exact number (Integer or Rational),
    [Num q true] a Float; [Add] and [Mul] are n-ary as in the library;
    [UndefApp] is the application of an undefined function, which is what
    parsing makes of a call to an unknown name; [Beyond] stands for a value
    that this model does not determine. *)
Inductive Expr : Type :=
| Num (q : Q) (flt : bool)
| Sym (s : string)
| Pi
| Add (args : list Expr)
| Mul (args : list Expr)
| Pow (b e : Expr)
| Fn (f : Func) (a : Expr)
| UndefApp (name : string) (args : list Expr)
| Beyond.

Definition func_eqb (f g : Func) : bool :=
  match f, g with
  | Fsin, Fsin | Fcos, Fcos | Ftan, Ftan | Fexp, Fexp | Flog, Flog => true
  | _, _ => false
  end.

(** Equality of the representations of two rationals. *)
Definition q_eqb (a b : Q) : bool :=
  (Qnum a =? Qnum b)%Z && (Qden a =? Qden b)%positive.

(** Structural equality of expressions. *)
Fixpoint expr_eqb (a b : Expr) {struct a} : bool :=
  let fix list_eqb (l l' : list Expr) {struct l} : bool :=
    match l, l' with
    | [], [] => true
    | x :: t, y :: t' => expr_eqb x y && list_eqb t t'
    | _, _ => false
    end in
  match a, b with
  | Num q f, Num q' f' => q_eqb q q' && Bool.eqb f f'
  | Sym s, Sym s' => String.eqb s s'
  | Pi, Pi => true
  | Add l, Add l' => list_eqb l l'
  | Mul l, Mul l' => list_eqb l l'
  | Pow x y, Pow x' y' => expr_eqb x x' && expr_eqb y y'
  | Fn f x, Fn g y => func_eqb f g && expr_eqb x y
  | UndefApp n l, UndefApp n' l' => String.eqb n n' && list_eqb l l'
  | Beyond, Beyond => true
  | _, _ => false
  end.

Fixpoint exprs_eqb (l l' : list Expr) : bool :=
  match l, l' with
  | [], [] => true
  | x :: t, y :: t' => expr_eqb x y && exprs_eqb t t'
  | _, _ => false
  end.

(** [mentions s e]: the symbol [s] occurs in [e] (it is one of the free
    symbols of [e]). *)
Fixpoint mentions (s : string) (e : Expr) : bool :=
  match e with
  | Sym t => String.eqb s t
  | Add l | Mul l | UndefApp _ l => existsb (mentions s) l
  | Pow b x => mentions s b || mentions s x
  | Fn _ a => mentions s a
  | Num _ _ | Pi | Beyond => false
  end.

(** An application of an undefined function occurs in [e]. *)
Fixpoint has_undef (e : Expr) : bool :=
  match e with
  | UndefApp _ _ => true
  | Add l | Mul l => existsb has_undef l
  | Pow b x => has_undef b || has_undef x
  | Fn _ a => has_undef a
  | Num _ _ | Sym _ | Pi | Beyond => false
  end.

(** [Beyond] occurs in [e]. *)
Fixpoint has_beyond (e : Expr) : bool :=
  match e with
  | Beyond => true
  | Add l | Mul l | UndefApp _ l => existsb has_beyond l
  | Pow b x => has_beyond b || has_beyond x
  | Fn _ a => has_beyond a
  | Num _ _ | Sym _ | Pi => false
  end.

(** The function [f] or the constant [Pi] occurs in [e]; the constructors
    use these to stay clear of rewriting rules that are not modelled. *)
Fixpoint has_fn (f : Func) (e : Expr) : bool :=
  match e with
  | Fn g a => func_eqb f g || has_fn f a
  | Add l | Mul l | UndefApp _ l => existsb (has_fn f) l
  | Pow b x => has_fn f b || has_fn f x
  | Num _ _ | Sym _ | Pi | Beyond => false
  end.

Fixpoint has_pi (e : Expr) : bool :=
  match e with
  | Pi => true
  | Add l | Mul l | UndefApp _ l => existsb has_pi l
  | Pow b x => has_pi b || has_pi x
  | Fn _ a => has_pi a
  | Num _ _ | Sym _ | Beyond => false
  end.

(** ** Numbers *)

(** An exact zero is [S.Zero]; an arithmetic result that is a Float zero
    collapses to it. *)
Definition mk_num (q : Q) (flt : bool) : Expr :=
  if Qeq_bool q 0 then Num 0 false else Num (Qred q) flt.

Definition is_zero (e : Expr) : bool :=
  match e with Num q _ => Qeq_bool q 0 | _ => false end.

(** [e is S.One]: the exact number only. *)
Definition is_One (e : Expr) : bool :=
  match e with Num q false => Qeq_bool q 1 | _ => false end.

Definition is_Num (e : Expr) : bool :=
  match e with Num _ _ => true | _ => false end.
Definition is_Beyond (e : Expr) : bool :=
  match e with Beyond => true | _ => false end.

Definition q_is_int (q : Q) : bool := (Qden (Qred q) =? 1)%positive.
Definition q_to_Z (q : Q) : Z := Qnum (Qred q).

Definition zero : Expr := Num 0 false.
Definition one : Expr := Num 1 false.
Definition minus_one : Expr := Num (-1) false.
Definition half : Expr := Num (1 # 2) false.

(** Numeric coefficients while a sum or a product is assembled: the value
    and whether a Float took part.  A zero result is the exact zero. *)
Definition coef : Type := (Q * bool)%type.

Definition nnorm (n : coef) : coef :=
  if Qeq_bool (fst n) 0 then (0, false) else (Qred (fst n), snd n).
Definition nadd (a b : coef) : coef := nnorm (fst a + fst b, snd a || snd b).
Definition nmul (a b : coef) : coef := nnorm (fst a * fst b, snd a || snd b).
Definition coef_is_One (c : coef) : bool := Qeq_bool (fst c) 1 && negb (snd c).
Definition coef_is_zero (c : coef) : bool := Qeq_bool (fst c) 0.
Definition of_coef (c : coef) : Expr := Num (fst c) (snd c).

(** ** Powers: [Pow.__new__] without the distribution over a product *)

(** [pow_core b e] follows the constructor of powers:
    - [e is S.Zero] gives 1 and [e is S.One] gives [b];
    - a number to an integer power is computed, [1 ** e] is 1;
    - [(b0 ** e0) ** n] for an integer [n] and a number [e0] is
      [b0 ** (e0 * n)];
    - otherwise the power is kept as it is.
    Not determined here ([Beyond]): a zero base with a negative or symbolic
    exponent, roots of numbers, a Float exponent that is zero or meets a
    number, a power or a product, powers of [exp], a symbolic exponent on a
    power, an exponent that mentions [log], and an integer power of a
    product (see [mk_pow]). *)
Definition pow_core (b e : Expr) : Expr :=
  match b, e with
  | Beyond, _ | _, Beyond => Beyond
  | _, Num qe true =>
      if Qeq_bool qe 0 then Beyond else
      match b with
      | Num _ _ | Pow _ _ | Mul _ | Fn Fexp _ => Beyond
      | _ => Pow b e
      end
  | _, Num qe false =>
      if Qeq_bool qe 0 then one
      else if Qeq_bool qe 1 then b
      else
        match b with
        | Num qb fb =>
            if q_is_int qe then
              if Qeq_bool qb 0 && (Qnum qe <? 0)%Z then Beyond
              else mk_num (Qpower qb (q_to_Z qe)) fb
            else if is_One b then one
            else Beyond
        | Pow b0 (Num q0 false) =>
            if q_is_int qe then
              match b0 with
              | Num _ _ | Pow _ _ | Mul _ | Fn Fexp _ | Beyond => Beyond
              | _ =>
                  let q := Qred (q0 * qe) in
                  if Qeq_bool q 0 then one
                  else if Qeq_bool q 1 then b0
                  else Pow b0 (Num q false)
              end
            else Pow b e
        | Pow _ _ => if q_is_int qe then Beyond else Pow b e
        | Mul l =>
            if q_is_int qe then Beyond
            else if existsb is_Num l then Beyond
            else Pow b e
        | Fn Fexp _ => Beyond
        | _ => Pow b e
        end
  | _, _ =>
      if has_fn Flog e then Beyond else
      match b with
      | Num qb _ =>
          if is_One b then one
          else if Qeq_bool qb 0 then Beyond
          else Pow b e
      | Pow _ _ | Fn Fexp _ => Beyond
      | _ => Pow b e
      end
  end.

(** ** Products: [Mul.flatten] without the distribution over a sum *)

Fixpoint mul_factors (e : Expr) : list Expr :=
  match e with
  | Mul l => flat_map mul_factors l
  | _ => [e]
  end.

(** [as_base_exp]: a power is split into base and exponent, anything else
    has exponent one. *)
Definition as_base_exp (e : Expr) : Expr * Expr :=
  match e with
  | Pow b x => (b, x)
  | _ => (e, one)
  end.

(** Factors whose combination with other factors is not modelled: a power
    of a number next to another factor ([2**x * 3**x] is [6**x], roots of
    numbers combine), and two exponentials ([exp(a) * exp(b)] is
    [exp(a + b)]). *)
Definition numpow_factor (e : Expr) : bool :=
  match e with
  | Pow (Num _ _) _ => true
  | _ => false
  end.

Definition exp_factor (e : Expr) : bool :=
  match e with
  | Fn Fexp _ => true
  | Pow (Fn Fexp _) _ => true
  | _ => false
  end.

(** One entry per base while the powers of a product are gathered:
    the base, the exponent, the original factor, and whether several factors
    were merged into the entry. *)
Record gathered : Type := Gathered {
  g_base : Expr;
  g_exp : Expr;
  g_orig : Expr;
  g_merged : bool
}.

(** Insert a factor; exponents of a base that occurs again are added when
    both are numbers, and the result is not determined otherwise. *)
Fixpoint gather_insert (o : Expr) (gs : list gathered) : option (list gathered) :=
  let (b, x) := as_base_exp o in
  match gs with
  | [] => Some [Gathered b x o false]
  | g :: r =>
      if expr_eqb b (g_base g) then
        match x, g_exp g with
        | Num q f, Num q' f' =>
            Some (Gathered b (of_coef (nadd (q', f') (q, f))) (g_orig g) true :: r)
        | _, _ => None
        end
      else
        match gather_insert o r with
        | Some r' => Some (g :: r')
        | None => None
        end
  end.

Definition count_if {A} (p : A -> bool) (l : list A) : nat :=
  List.length (filter p l).

Definition unmodelled_product (fs : list Expr) : bool :=
  (existsb numpow_factor fs && (1 <? count_if (fun e => negb (is_Num e)) fs)%nat)
  || (1 <? count_if exp_factor fs)%nat.

(** The factor that an entry stands for. *)
Definition gathered_factor (g : gathered) : Expr :=
  if g_merged g then pow_core (g_base g) (g_exp g) else g_orig g.

(** The loop of [Mul.flatten] over the factors: numbers go to the
    coefficient, the rest is gathered by base. *)
Fixpoint mul_loop (fs : list Expr) (c : coef) (gs : list gathered)
  : option (coef * list gathered) :=
  match fs with
  | [] => Some (c, gs)
  | Num q f :: r => mul_loop r (nmul c (q, f)) gs
  | o :: r =>
      match gather_insert o gs with
      | Some gs' => mul_loop r c gs'
      | None => None
      end
  end.

(** [mul_core l] is the product constructor on [l] up to the distribution of a numeric
    coefficient over a sum: nested products are flattened, numbers are
    multiplied into one leading coefficient, powers of one base are
    combined, a zero coefficient gives zero and the coefficient one is
    dropped.  The factors keep the order of their first occurrence. *)
Definition mul_core (l : list Expr) : Expr :=
  let fs := flat_map mul_factors l in
  if existsb is_Beyond fs then Beyond
  else if unmodelled_product fs then Beyond
  else
    match mul_loop fs (1, false) [] with
    | None => Beyond
    | Some (c, gs) =>
        let factors := filter (fun e => negb (is_One e)) (map gathered_factor gs) in
        if existsb is_Beyond factors then Beyond
        else if existsb is_Num factors then Beyond
        else if coef_is_zero c then zero
        else
          let args := if coef_is_One c then factors else of_coef c :: factors in
          match args with
          | [] => one
          | [a] => a
          | _ => Mul args
          end
    end.

(** ** Sums: [Add.flatten] *)

Fixpoint add_terms (e : Expr) : list Expr :=
  match e with
  | Add l => flat_map add_terms l
  | _ => [e]
  end.

(** [as_coeff_Mul]: the leading number of a product and the rest. *)
Definition as_coeff_Mul (e : Expr) : coef * Expr :=
  match e with
  | Mul (Num q f :: rest) =>
      ((q, f), match rest with [r] => r | _ => Mul rest end)
  | _ => ((1, false), e)
  end.

(** The dictionary [terms] of [Add.flatten], in insertion order. *)
Fixpoint term_insert (s : Expr) (c : coef) (ts : list (Expr * coef))
  : list (Expr * coef) :=
  match ts with
  | [] => [(s, c)]
  | (s', c') :: r =>
      if expr_eqb s s' then (s', nadd c' c) :: r
      else (s', c') :: term_insert s c r
  end.

Fixpoint add_loop (os : list Expr) (c : coef) (ts : list (Expr * coef))
  : coef * list (Expr * coef) :=
  match os with
  | [] => (c, ts)
  | Num q f :: r => add_loop r (nadd c (q, f)) ts
  | o :: r => let (k, s) := as_coeff_Mul o in add_loop r c (term_insert s k ts)
  end.

(** The argument that a collected term [c * s] becomes. *)
Definition build_term (sc : Expr * coef) : list Expr :=
  let (s, c) := sc in
  if coef_is_zero c then []
  else if coef_is_One c then [s]
  else match s with
       | Mul l => [Mul (of_coef c :: l)]
       | _ => [mul_core [of_coef c; s]]
       end.

(** [mk_add l] is the sum constructor on [l]: nested sums are flattened, numbers are added
    into one leading coefficient, terms that differ by a numeric factor are
    collected, zero terms disappear.  The terms keep the order of their
    first occurrence (the library sorts them; the order is not modelled). *)
Definition mk_add (l : list Expr) : Expr :=
  let os := flat_map add_terms l in
  if existsb is_Beyond os then Beyond
  else
    let (c, ts) := add_loop os (0, false) [] in
    let newseq := flat_map build_term ts in
    if existsb is_Beyond newseq then Beyond
    else
      let args := if coef_is_zero c then newseq else of_coef c :: newseq in
      match args with
      | [] => zero
      | [a] => a
      | _ => Add args
      end.

(** ** Products and powers, complete *)

(** [mk_mul l] is the product constructor on [l]: after [mul_core], a number times a sum is
    distributed over the terms of the sum ([2*(x + y)] is [2*x + 2*y]). *)
Definition mk_mul (l : list Expr) : Expr :=
  match mul_core l with
  | Mul [Num q f; Add ts] => mk_add (map (fun t => mul_core [Num q f; t]) ts)
  | r => r
  end.

(** [mk_pow b e] is [Pow(b, e)]: an integer power of a product is the
    product of the powers of its factors. *)
Definition mk_pow (b e : Expr) : Expr :=
  match b, e with
  | Mul l, Num q false =>
      if q_is_int q && negb (Qeq_bool q 0) && negb (Qeq_bool q 1)
      then mk_mul (map (fun a => pow_core a e) l)
      else pow_core b e
  | _, _ => pow_core b e
  end.

(** ** Function applications *)

(** [could_extract_minus_sign] for a product: its leading number is
    negative. *)
Definition neg_coeff (a : Expr) : bool :=
  match a with
  | Mul (Num q _ :: _) => (Qnum q <? 0)%Z
  | _ => false
  end.

(** A sum with a negative number or a negative term: whether the library
    extracts a sign from it depends on its ordering of the terms. *)
Definition add_has_minus (a : Expr) : bool :=
  match a with
  | Add l =>
      existsb (fun t => neg_coeff t ||
                        match t with Num q _ => (Qnum q <? 0)%Z | _ => false end) l
  | _ => false
  end.

(** The arguments at which the evaluation of a function is not modelled:
    special values of the trigonometric functions at multiples of [pi],
    [exp] of a logarithm, [log] of an exponential or of a constant. *)
Definition fn_guard (f : Func) (a : Expr) : bool :=
  match f with
  | Fsin | Fcos | Ftan => has_pi a || add_has_minus a
  | Fexp => has_fn Flog a
  | Flog => has_fn Fexp a || has_pi a
  end.

(** [mk_fn f a] is the application [f(a)] as the library evaluates it:
    [sin] and [tan] are odd and [cos] is even in a leading minus sign;
    the value at a number is not modelled. *)
Definition mk_fn (f : Func) (a : Expr) : Expr :=
  match a with
  | Beyond | Num _ _ => Beyond
  | _ =>
      if fn_guard f a then Beyond
      else if neg_coeff a then
        let a' := mk_mul [minus_one; a] in
        if is_Beyond a' || is_Num a' then Beyond
        else match f with
             | Fsin | Ftan => mk_mul [minus_one; Fn f a']
             | Fcos => Fn f a'
             | Fexp | Flog => Fn f a
             end
      else Fn f a
  end.

(** An applied undefined function is kept as it is. *)
Definition mk_undef (name : string) (args : list Expr) : Expr :=
  if existsb is_Beyond args then Beyond else UndefApp name args.

(** ** The operators of Python on expressions *)

Definition e_add (a b : Expr) : Expr := mk_add [a; b].
Definition e_mul (a b : Expr) : Expr := mk_mul [a; b].
Definition e_neg (a : Expr) : Expr := mk_mul [minus_one; a].
Definition e_sub (a b : Expr) : Expr := mk_add [a; e_neg b].
Definition e_pow (a b : Expr) : Expr := mk_pow a b.
(** [a / b] is [Mul(a, Pow(b, -1))], and the power alone when [a] is one. *)
Definition e_div (a b : Expr) : Expr :=
  let denom := mk_pow b minus_one in
  if is_One a then denom else mk_mul [a; denom].

(** [sqrt] of [allowed_funcs]. *)
Definition e_sqrt (a : Expr) : Expr := mk_pow a half.

(** ** Substitution: [Expr.subs] for a symbol *)

(** [subs old new e] follows the library's [_subs] with its fall-back: a
    node is rebuilt with its constructor only when one of its arguments has
    changed, and returned as it is otherwise. *)
Fixpoint subs (old : string) (new : Expr) (e : Expr) : Expr :=
  match e with
  | Sym t => if String.eqb t old then new else e
  | Add l =>
      let l' := map (subs old new) l in
      if exprs_eqb l' l then e else mk_add l'
  | Mul l =>
      let l' := map (subs old new) l in
      if exprs_eqb l' l then e else mk_mul l'
  | Pow b x =>
      let b' := subs old new b in
      let x' := subs old new x in
      if expr_eqb b' b && expr_eqb x' x then e else mk_pow b' x'
  | Fn f a =>
      let a' := subs old new a in
      if expr_eqb a' a then e else mk_fn f a'
  | UndefApp n l =>
      let l' := map (subs old new) l in
      if exprs_eqb l' l then e else mk_undef n l'
  | Num _ _ | Pi | Beyond => e
  end.

(** The words of the specification: the variable is replaced by the value
    everywhere in the expression tree, every node being built again from
    its new arguments. *)
Fixpoint replace_everywhere (var : string) (v : Expr) (e : Expr) : Expr :=
  match e with
  | Sym t => if String.eqb t var then v else e
  | Add l => mk_add (map (replace_everywhere var v) l)
  | Mul l => mk_mul (map (replace_everywhere var v) l)
  | Pow b x => mk_pow (replace_everywhere var v b) (replace_everywhere var v x)
  | Fn f a => mk_fn f (replace_everywhere var v a)
  | UndefApp n l => mk_undef n (map (replace_everywhere var v) l)
  | Num _ _ | Pi | Beyond => e
  end.

(** An expression is evaluated when every node of it is what its
    constructor returns on its arguments; this is the form of every
    expression the library hands out. *)
Fixpoint evaluated (e : Expr) : bool :=
  match e with
  | Add l => forallb evaluated l && expr_eqb (mk_add l) e
  | Mul l => forallb evaluated l && expr_eqb (mk_mul l) e
  | Pow b x => evaluated b && evaluated x && expr_eqb (mk_pow b x) e
  | Fn f a => evaluated a && expr_eqb (mk_fn f a) e
  | UndefApp n l => forallb evaluated l && expr_eqb (mk_undef n l) e
  | Num _ _ | Sym _ | Pi | Beyond => true
  end.

(** ** Differentiation: [sympy.diff] for a symbol *)

(** The derivative of [f(a)] with respect to its argument ([fdiff]). *)
Definition fdiff (f : Func) (a : Expr) : Expr :=
  match f with
  | Fsin => mk_fn Fcos a
  | Fcos => e_neg (mk_fn Fsin a)
  | Ftan => e_add one (e_pow (Fn Ftan a) (Num 2 false))
  | Fexp => Fn Fexp a
  | Flog => e_div one a
  end.

(** The product rule of [Mul._eval_derivative]: one term for each factor
    whose derivative is not zero, the factors multiplied from the left. *)
Fixpoint product_terms (pre l ds : list Expr) : list Expr :=
  match l, ds with
  | a :: r, d :: dr =>
      (if is_zero d then [] else [fold_left e_mul (pre ++ d :: r) one])
        ++ product_terms (pre ++ [a]) r dr
  | _, _ => []
  end.

(** [diff e s]: zero at once when [s] is not among the free symbols; then
    sums term by term, products by the product rule, a power [b ** x] as
    [b**x * (x' * log(b) + b' * x / b)], a function by the chain rule.
    The derivative of an applied undefined function is not modelled. *)
Fixpoint diff (e : Expr) (s : string) : Expr :=
  if has_beyond e then Beyond
  else if negb (mentions s e) then zero
  else
    match e with
    | Num _ _ | Pi => zero
    | Sym t => if String.eqb t s then one else zero
    | Add l => mk_add (map (fun a => diff a s) l)
    | Mul l => mk_add (product_terms [] l (map (fun a => diff a s) l))
    | Pow b x =>
        let db := diff b s in
        let dx := diff x s in
        e_mul e (e_add (e_mul dx (mk_fn Flog b)) (e_div (e_mul db x) b))
    | Fn f a =>
        let da := diff a s in
        if is_zero da then zero else mk_add [e_mul (fdiff f a) da]
    | UndefApp _ _ => Beyond
    | Beyond => Beyond
    end.

(* ===================================================================== *)
(** * Parsing: [sympy.sympify] on a string *)
(* ===================================================================== *)

(** [sympify] tokenizes the text as Python, wraps numbers and unknown names
    (a name followed by a parenthesis becomes an undefined function, any
    other unknown name a symbol) and evaluates the result as Python code, in
    which the operators build expressions.  The model covers the texts made
    of letters, digits, underscores, blanks and [+ - * / ** ( ) ,]; any
    other text is [Unmodelled]. *)

Inductive token : Type :=
| TInt (n : N)
| TName (s : string)
| TPlus | TMinus | TStar | TSlash | TPow
| TLpar | TRpar | TComma.

Local Open Scope char_scope.

Definition is_digit (c : ascii) : bool :=
  let n := nat_of_ascii c in (48 <=? n)%nat && (n <=? 57)%nat.

Definition is_letter (c : ascii) : bool :=
  let n := nat_of_ascii c in
  ((65 <=? n)%nat && (n <=? 90)%nat) || ((97 <=? n)%nat && (n <=? 122)%nat)
  || (n =? 95)%nat.

Definition is_operator (c : ascii) : bool :=
  existsb (Ascii.eqb c) ["+"; "-"; "*"; "/"; "("; ")"; ","].

Definition in_alphabet (c : ascii) : bool :=
  is_digit c || is_letter c || is_operator c || Ascii.eqb c " ".

Local Close Scope char_scope.
Local Open Scope string_scope.

(** The reserved words of Python; a text that contains one is outside the
    model. *)
Definition keywords : list string :=
  ["False"; "None"; "True"; "and"; "as"; "assert"; "async"; "await"; "break";
   "class"; "continue"; "def"; "del"; "elif"; "else"; "except"; "finally";
   "for"; "from"; "global"; "if"; "import"; "in"; "is"; "lambda"; "nonlocal";
   "not"; "or"; "pass"; "raise"; "return"; "try"; "while"; "with"; "yield"].

Definition in_names (s : string) (l : list string) : bool :=
  existsb (String.eqb s) l.

Inductive lexmode : Type :=
| LIdle
| LName (acc : string)
| LInt (digits : list ascii)
| LStar
| LSlash.

Definition digit_value (c : ascii) : N := N.of_nat (nat_of_ascii c - 48).

Definition int_value (ds : list ascii) : N :=
  fold_left (fun n c => (10 * n + digit_value c)%N) ds 0%N.

(** The tokens a mode stands for when the token ends.  A decimal literal
    with a leading zero is accepted by Python only when it is zero. *)
Definition flush (m : lexmode) : outcome (list token) :=
  match m with
  | LIdle => Ok []
  | LName acc => if in_names acc keywords then Unmodelled else Ok [TName acc]
  | LInt ds =>
      match ds with
      | d :: _ :: _ =>
          if Ascii.eqb d "0"%char && negb (int_value ds =? 0)%N
          then Raise SyntaxError else Ok [TInt (int_value ds)]
      | _ => Ok [TInt (int_value ds)]
      end
  | LStar => Ok [TStar]
  | LSlash => Ok [TSlash]
  end.

(** The mode and the tokens after a character read between tokens. *)
Definition start (c : ascii) : outcome (lexmode * list token) :=
  if Ascii.eqb c " "%char then Ok (LIdle, [])
  else if is_letter c then Ok (LName (String c EmptyString), [])
  else if is_digit c then Ok (LInt [c], [])
  else if Ascii.eqb c "+"%char then Ok (LIdle, [TPlus])
  else if Ascii.eqb c "-"%char then Ok (LIdle, [TMinus])
  else if Ascii.eqb c "("%char then Ok (LIdle, [TLpar])
  else if Ascii.eqb c ")"%char then Ok (LIdle, [TRpar])
  else if Ascii.eqb c ","%char then Ok (LIdle, [TComma])
  else if Ascii.eqb c "*"%char then Ok (LStar, [])
  else if Ascii.eqb c "/"%char then Ok (LSlash, [])
  else Unmodelled.

Local Open Scope outcome_scope.

Fixpoint lex (s : list ascii) (m : lexmode) : outcome (list token) :=
  match s with
  | [] => flush m
  | c :: r =>
      let restart :=
        ts <- flush m ;;
        mt <- start c ;;
        rest <- lex r (fst mt) ;;
        Ok (ts ++ snd mt ++ rest)%list in
      match m with
      | LName acc =>
          if is_letter c || is_digit c
          then lex r (LName (acc ++ String c EmptyString))
          else restart
      | LInt ds =>
          if is_digit c then lex r (LInt (ds ++ [c])%list)
          else if is_letter c then Unmodelled
          else restart
      | LStar =>
          if Ascii.eqb c "*"%char
          then rest <- lex r LIdle ;; Ok (TPow :: rest)
          else restart
      | LSlash =>
          if Ascii.eqb c "/"%char then Unmodelled else restart
      | LIdle => restart
      end
  end.

(** ** The grammar of Python expressions, for the tokens above *)

Inductive binop : Type := BAdd | BSub | BMul | BDiv | BPow.

(** [PyName s called]: [called] records that the next token is an opening
    parenthesis, which decides what an unknown name becomes. *)
Inductive PyExpr : Type :=
| PyInt (n : N)
| PyName (s : string) (called : bool)
| PyNeg (a : PyExpr)
| PyPos (a : PyExpr)
| PyBin (op : binop) (a b : PyExpr)
| PyCall (f : PyExpr) (args : list PyExpr).

(** Recursive descent with the precedences of Python: sums, terms, unary
    signs, powers (whose exponent may carry a sign), calls, atoms.  A tuple
    or an unpacked argument is valid Python that the model does not
    follow. *)
Fixpoint parse_sum (fuel : nat) (ts : list token) {struct fuel}
  : outcome (PyExpr * list token) :=
  match fuel with
  | O => Unmodelled
  | S n => ar <- parse_term n ts ;; sum_loop n (fst ar) (snd ar)
  end
with sum_loop (fuel : nat) (a : PyExpr) (ts : list token) {struct fuel}
  : outcome (PyExpr * list token) :=
  match fuel with
  | O => Unmodelled
  | S n =>
      match ts with
      | TPlus :: r => br <- parse_term n r ;; sum_loop n (PyBin BAdd a (fst br)) (snd br)
      | TMinus :: r => br <- parse_term n r ;; sum_loop n (PyBin BSub a (fst br)) (snd br)
      | _ => Ok (a, ts)
      end
  end
with parse_term (fuel : nat) (ts : list token) {struct fuel}
  : outcome (PyExpr * list token) :=
  match fuel with
  | O => Unmodelled
  | S n => ar <- parse_factor n ts ;; term_loop n (fst ar) (snd ar)
  end
with term_loop (fuel : nat) (a : PyExpr) (ts : list token) {struct fuel}
  : outcome (PyExpr * list token) :=
  match fuel with
  | O => Unmodelled
  | S n =>
      match ts with
      | TStar :: r => br <- parse_factor n r ;; term_loop n (PyBin BMul a (fst br)) (snd br)
      | TSlash :: r => br <- parse_factor n r ;; term_loop n (PyBin BDiv a (fst br)) (snd br)
      | _ => Ok (a, ts)
      end
  end
with parse_factor (fuel : nat) (ts : list token) {struct fuel}
  : outcome (PyExpr * list token) :=
  match fuel with
  | O => Unmodelled
  | S n =>
      match ts with
      | TPlus :: r => ar <- parse_factor n r ;; Ok (PyPos (fst ar), snd ar)
      | TMinus :: r => ar <- parse_factor n r ;; Ok (PyNeg (fst ar), snd ar)
      | _ => parse_power n ts
      end
  end
with parse_power (fuel : nat) (ts : list token) {struct fuel}
  : outcome (PyExpr * list token) :=
  match fuel with
  | O => Unmodelled
  | S n =>
      ar <- parse_atom n ts ;;
      pr <- trailer_loop n (fst ar) (snd ar) ;;
      match snd pr with
      | TPow :: r => br <- parse_factor n r ;; Ok (PyBin BPow (fst pr) (fst br), snd br)
      | _ => Ok pr
      end
  end
with trailer_loop (fuel : nat) (a : PyExpr) (ts : list token) {struct fuel}
  : outcome (PyExpr * list token) :=
  match fuel with
  | O => Unmodelled
  | S n =>
      match ts with
      | TLpar :: r => lr <- parse_args n r ;; trailer_loop n (PyCall a (fst lr)) (snd lr)
      | _ => Ok (a, ts)
      end
  end
with parse_atom (fuel : nat) (ts : list token) {struct fuel}
  : outcome (PyExpr * list token) :=
  match fuel with
  | O => Unmodelled
  | S n =>
      match ts with
      | TInt k :: r => Ok (PyInt k, r)
      | TName s :: r =>
          Ok (PyName s (match r with TLpar :: _ => true | _ => false end), r)
      | TLpar :: TRpar :: _ => Unmodelled
      | TLpar :: r =>
          ar <- parse_sum n r ;;
          match snd ar with
          | TRpar :: r' => Ok (fst ar, r')
          | TComma :: _ => Unmodelled
          | _ => Raise SyntaxError
          end
      | _ => Raise SyntaxError
      end
  end
with parse_args (fuel : nat) (ts : list token) {struct fuel}
  : outcome (list PyExpr * list token) :=
  match fuel with
  | O => Unmodelled
  | S n =>
      match ts with
      | TRpar :: r => Ok ([], r)
      | TStar :: _ | TPow :: _ => Unmodelled
      | _ =>
          ar <- parse_sum n ts ;;
          match snd ar with
          | TRpar :: r => Ok ([fst ar], r)
          | TComma :: r => lr <- parse_args n r ;; Ok (fst ar :: fst lr, snd lr)
          | _ => Raise SyntaxError
          end
      end
  end.

(** The text as a Python expression. *)
Definition py_parse (s : string) : outcome PyExpr :=
  let cs := list_ascii_of_string s in
  if negb (forallb in_alphabet cs) then Unmodelled
  else
    ts <- lex cs LIdle ;;
    ar <- parse_sum (8 * List.length ts + 8) ts ;;
    match snd ar with
    | [] => Ok (fst ar)
    | TComma :: _ => Unmodelled
    | _ => Raise SyntaxError
    end.

(** ** Evaluation of the parsed text *)

(** What a name of [allowed_funcs] stands for. *)
Inductive Known : Type :=
| KFunc (f : Func)
| KSqrt.

(** [allowed_funcs] of the script: the [locals] handed to [sympify]. *)
Definition allowed_funcs : list (string * Known) :=
  [("sin", KFunc Fsin); ("cos", KFunc Fcos); ("tan", KFunc Ftan);
   ("exp", KFunc Fexp); ("log", KFunc Flog); ("sqrt", KSqrt)].

Fixpoint lookup {A} (name : string) (d : list (string * A)) : option A :=
  match d with
  | [] => None
  | (k, v) :: r => if String.eqb name k then Some v else lookup name r
  end.

(** Names that the namespace of the symbolic library ([from sympy import *]
    and the built-in functions) binds, besides [pi].  What the library does
    with them is outside the model; the list is not exhaustive. *)
Definition library_names : list string :=
  ["E"; "I"; "S"; "N"; "O"; "Q"; "oo"; "zoo"; "nan"; "EulerGamma"; "GoldenRatio";
   "Catalan"; "true"; "false";
   "Abs"; "abs"; "sign"; "re"; "im"; "arg"; "conjugate"; "ln"; "root"; "cbrt";
   "Min"; "Max"; "min"; "max"; "floor"; "ceiling"; "frac"; "factorial";
   "binomial"; "gamma"; "loggamma"; "beta"; "zeta"; "erf"; "erfc";
   "asin"; "acos"; "atan"; "atan2"; "acot"; "asec"; "acsc"; "cot"; "sec"; "csc";
   "sinh"; "cosh"; "tanh"; "coth"; "sech"; "csch"; "asinh"; "acosh"; "atanh";
   "sinc"; "LambertW"; "Heaviside"; "DiracDelta"; "exp_polar";
   "sin"; "cos"; "tan"; "exp"; "log"; "sqrt";
   "Symbol"; "symbols"; "var"; "Dummy"; "Wild"; "Function"; "Lambda";
   "Integer"; "Rational"; "Float"; "Number"; "Add"; "Mul"; "Pow"; "Mod";
   "Derivative"; "Integral"; "Subs"; "diff"; "integrate"; "limit"; "series";
   "solve"; "simplify"; "expand"; "factor"; "cancel"; "apart"; "together";
   "collect"; "trigsimp"; "powsimp"; "radsimp"; "nsimplify"; "sympify";
   "lambdify"; "latex"; "Matrix"; "eye"; "zeros"; "ones"; "det";
   "Eq"; "Ne"; "Lt"; "Le"; "Gt"; "Ge"; "And"; "Or"; "Not"; "Xor";
   "Piecewise"; "Sum"; "Product"; "summation"; "product"; "Poly"; "Order";
   "sum"; "len"; "pow"; "round"; "divmod"; "hash"; "id"; "repr"; "sorted";
   "any"; "all"; "chr"; "ord"; "bin"; "hex"; "oct"; "callable"; "isinstance";
   "issubclass"; "getattr"; "setattr"; "hasattr"; "delattr"; "format"; "iter";
   "next"; "dir"; "vars"; "globals"; "locals"; "compile"; "eval"; "exec";
   "open"; "input"; "print"; "ascii"; "breakpoint"].

(** The values that the evaluation of the text produces. *)
Inductive pyobj : Type :=
| VExpr (e : Expr)
| VKnown (k : Known)
| VUndefFn (name : string).

(** A name: first [locals], then the namespace of the library, and a new
    undefined function or symbol when neither binds it. *)
Definition resolve (locals : list (string * Known)) (name : string) (called : bool)
  : outcome pyobj :=
  match lookup name locals with
  | Some k => Ok (VKnown k)
  | None =>
      if String.eqb name "pi" then Ok (VExpr Pi)
      else if in_names name library_names then Unmodelled
      else Ok (if called then VUndefFn name else VExpr (Sym name))
  end.

(** Operators apply to expressions; a function class is not an operand. *)
Definition unary (op : Expr -> Expr) (v : pyobj) : outcome pyobj :=
  match v with
  | VExpr e => Ok (VExpr (op e))
  | _ => Raise TypeError
  end.

Definition binop_fun (op : binop) : Expr -> Expr -> Expr :=
  match op with
  | BAdd => e_add
  | BSub => e_sub
  | BMul => e_mul
  | BDiv => e_div
  | BPow => e_pow
  end.

Definition binary (op : binop) (a b : pyobj) : outcome pyobj :=
  match a, b with
  | VExpr x, VExpr y => Ok (VExpr (binop_fun op x y))
  | _, _ => Raise TypeError
  end.

Fixpoint exprs_of (vs : list pyobj) : option (list Expr) :=
  match vs with
  | [] => Some []
  | VExpr e :: r =>
      match exprs_of r with Some l => Some (e :: l) | None => None end
  | _ :: _ => None
  end.

(** A call: an undefined function takes any arguments; [sin], [cos], [tan]
    and [exp] take one; a second argument of [log] (the base) or of [sqrt]
    is not modelled; an expression is not callable. *)
Definition call (f : pyobj) (vs : list pyobj) : outcome pyobj :=
  match f with
  | VExpr _ => Raise TypeError
  | VUndefFn n =>
      match exprs_of vs with
      | Some es => Ok (VExpr (mk_undef n es))
      | None => Unmodelled
      end
  | VKnown k =>
      match exprs_of vs with
      | None => Unmodelled
      | Some [e] =>
          Ok (VExpr (match k with KFunc g => mk_fn g e | KSqrt => e_sqrt e end))
      | Some [_; _] =>
          match k with
          | KFunc Flog | KSqrt => Unmodelled
          | _ => Raise TypeError
          end
      | Some _ => Raise TypeError
      end
  end.

Fixpoint eval_py (locals : list (string * Known)) (a : PyExpr) : outcome pyobj :=
  match a with
  | PyInt n => Ok (VExpr (Num (inject_Z (Z.of_N n)) false))
  | PyName s c => resolve locals s c
  | PyNeg x => v <- eval_py locals x ;; unary e_neg v
  | PyPos x => v <- eval_py locals x ;; unary (fun e => e) v
  | PyBin op x y =>
      vx <- eval_py locals x ;;
      vy <- eval_py locals y ;;
      binary op vx vy
  | PyCall f args =>
      vf <- eval_py locals f ;;
      match vf with
      | VExpr _ => Raise TypeError
      | _ =>
          vs <- (fix eval_args (l : list PyExpr) : outcome (list pyobj) :=
                   match l with
                   | [] => Ok []
                   | x :: r =>
                       v <- eval_py locals x ;;
                       vs <- eval_args r ;;
                       Ok (v :: vs)
                   end) args ;;
          call vf vs
      end
  end.

(** [sympify(text, locals=...)].  Every exception is an [Exception] for the
    script; a result that is not an expression of the model (a function
    class, an expression with a part that is not determined) is
    [Unmodelled]. *)
Definition sympify (text : string) (locals : list (string * Known)) : outcome Expr :=
  a <- py_parse text ;;
  v <- eval_py locals a ;;
  match v with
  | VExpr e => if has_beyond e then Unmodelled else Ok e
  | _ => Unmodelled
  end.

(* ===================================================================== *)
(** * Numeric evaluation: [lambdify((x, y), f, "numpy")] applied to the grid *)
(* ===================================================================== *)

(** The values of numpy's transcendental functions at finite arguments;
    the claims proved below hold for every such library. *)
Record NumLib : Type := {
  lib_fun : Func -> Q -> fval;
  lib_sqrt : Q -> fval;
  lib_pow : fval -> fval -> fval
}.

(** [numpy.sin] and the like on one float: the IEEE rules at the
    infinities, NaN for the logarithm of a negative number, minus infinity
    for the logarithm of zero; no exception. *)
Definition np_apply (lib : NumLib) (f : Func) (v : fval) : fval :=
  match v with
  | NaN => NaN
  | PInf => match f with Fexp | Flog => PInf | _ => NaN end
  | NInf => match f with Fexp => Fin 0 | _ => NaN end
  | Fin q =>
      match f with
      | Flog =>
          match (0 ?= q)%Q with
          | Lt => lib_fun lib Flog q
          | Eq => NInf
          | Gt => NaN
          end
      | _ => lib_fun lib f q
      end
  end.

Definition np_sqrt (lib : NumLib) (v : fval) : fval :=
  match v with
  | NaN | NInf => NaN
  | PInf => PInf
  | Fin q => match (0 ?= q)%Q with Gt => NaN | _ => lib_sqrt lib q end
  end.

(** What the generated function computes with: a scalar, a two-dimensional
    array of floats, a symbolic expression (a symbol that is not an argument
    of the generated function is bound to itself), or an array of objects
    (what numpy makes of an array combined with a symbolic expression). *)
Inductive pyval : Type :=
| PNum (v : fval)
| PArr (a : list (list fval))
| PSym
| PObj.

Definition map2d (f : fval -> fval) (a : list (list fval)) : list (list fval) :=
  map (map f) a.

Fixpoint zip_with {A B C} (f : A -> B -> C) (a : list A) (b : list B) : list C :=
  match a, b with
  | x :: r, y :: s => f x y :: zip_with f r s
  | _, _ => []
  end.

Definition same_shape (a b : list (list fval)) : bool :=
  (List.length a =? List.length b)%nat
  && forallb (fun p => (List.length (fst p) =? List.length (snd p))%nat)
             (combine a b).

(** An arithmetic operator of the generated code, with numpy's broadcasting
    of a scalar; arrays of different shapes are outside the model. *)
Definition vbin (op : fval -> fval -> fval) (a b : pyval) : outcome pyval :=
  match a, b with
  | PNum x, PNum y => Ok (PNum (op x y))
  | PNum x, PArr m => Ok (PArr (map2d (op x) m))
  | PArr m, PNum y => Ok (PArr (map2d (fun v => op v y) m))
  | PArr m, PArr n =>
      if same_shape m n then Ok (PArr (zip_with (zip_with op) m n))
      else Unmodelled
  | PSym, PNum _ | PNum _, PSym | PSym, PSym => Ok PSym
  | _, _ => Ok PObj
  end.

(** A numpy function: elementwise on floats; on a symbolic expression numpy
    looks for a method of that name and raises [TypeError]. *)
Definition vfun (f : fval -> fval) (a : pyval) : outcome pyval :=
  match a with
  | PNum x => Ok (PNum (f x))
  | PArr m => Ok (PArr (map2d f m))
  | PSym | PObj => Raise TypeError
  end.

(** A literal integer power.  A scalar zero to a negative power depends on
    the kind of scalar and is outside the model. *)
Definition vpow_int (a : pyval) (n : Z) : outcome pyval :=
  match a with
  | PNum (Fin q) =>
      if Qeq_bool q 0 && (n <? 0)%Z then Unmodelled
      else Ok (PNum (fpow_int (Fin q) n))
  | PNum x => Ok (PNum (fpow_int x n))
  | PArr m => Ok (PArr (map2d (fun v => fpow_int v n) m))
  | PSym => Ok PSym
  | PObj => Ok PObj
  end.

(** The outcomes of the operands of one operation: an exception raised by
    any of them is the outcome of the whole, whatever the others do. *)
Fixpoint collect {A} (os : list (outcome A)) : outcome (list A) :=
  match os with
  | [] => Ok []
  | o :: r =>
      match o, collect r with
      | Raise e, _ => Raise e
      | _, Raise e => Raise e
      | Unmodelled, _ | _, Unmodelled => Unmodelled
      | Ok a, Ok l => Ok (a :: l)
      end
  end.

Definition vfold (op : fval -> fval -> fval) (unit : fval) (vs : list pyval)
  : outcome pyval :=
  match vs with
  | [] => Ok (PNum unit)
  | v :: r => fold_left (fun acc w => a <- acc ;; vbin op a w) r (Ok v)
  end.

(** The double nearest to pi, which is [numpy.pi]. *)
Definition pi_double : Q := 884279719003555 # 281474976710656.

(** [f_lamb lib e Xa Ya]: the value of the function generated for [e] at
    the arrays [Xa] and [Ya].  The printer writes [b ** (1/2)] as
    [sqrt(b)], [b ** (-1/2)] as [1/sqrt(b)], and an undefined function as a
    call of its name, which no namespace binds. *)
Fixpoint f_lamb (lib : NumLib) (e : Expr) (Xa Ya : list (list fval)) : outcome pyval :=
  match e with
  | Num q _ => Ok (PNum (Fin q))
  | Sym s =>
      if String.eqb s "x" then Ok (PArr Xa)
      else if String.eqb s "y" then Ok (PArr Ya)
      else Ok PSym
  | Pi => Ok (PNum (Fin pi_double))
  | Add l =>
      vs <- collect (map (fun a => f_lamb lib a Xa Ya) l) ;; vfold fadd (Fin 0) vs
  | Mul l =>
      vs <- collect (map (fun a => f_lamb lib a Xa Ya) l) ;; vfold fmul (Fin 1) vs
  | Pow b (Num q false) =>
      vb <- f_lamb lib b Xa Ya ;;
      if Qeq_bool q (1 # 2) then vfun (np_sqrt lib) vb
      else if Qeq_bool q (-1 # 2) then
        r <- vfun (np_sqrt lib) vb ;; vpow_int r (-1)
      else if q_is_int q then vpow_int vb (q_to_Z q)
      else vbin (lib_pow lib) vb (PNum (Fin q))
  | Pow b x =>
      vs <- collect [f_lamb lib b Xa Ya; f_lamb lib x Xa Ya] ;;
      match vs with
      | [vb; vx] => vbin (lib_pow lib) vb vx
      | _ => Unmodelled
      end
  | Fn f a =>
      va <- f_lamb lib a Xa Ya ;; vfun (np_apply lib f) va
  | UndefApp _ _ => Raise NameError
  | Beyond => Unmodelled
  end.

(* ===================================================================== *)
(** * The surface explanation *)
(* ===================================================================== *)

(** [numpy.fmin] and [numpy.fmax]: a NaN operand is ignored. *)
Definition fmin (a b : fval) : fval :=
  match a, b with
  | NaN, _ => b
  | _, NaN => a
  | _, _ => if fleb a b then a else b
  end.

Definition fmax (a b : fval) : fval :=
  match a, b with
  | NaN, _ => b
  | _, NaN => a
  | _, _ => if fleb a b then b else a
  end.

(** [numpy.nanmin] and [numpy.nanmax] over all the elements: the reduction
    by [fmin] or [fmax], which is NaN only when every element is; an empty
    array raises [ValueError]. *)
Definition nanmin (l : list fval) : outcome fval :=
  match l with
  | [] => Raise ValueError
  | a :: r => Ok (fold_left fmin r a)
  end.

Definition nanmax (l : list fval) : outcome fval :=
  match l with
  | [] => Raise ValueError
  | a :: r => Ok (fold_left fmax r a)
  end.

Inductive Explanation : Type := MinimumPoint | MaximumPoint | SaddlePoint.

Definition explanation_text (e : Explanation) : string :=
  match e with
  | MinimumPoint =>
      "The surface lies above the xy-plane, suggesting a minimum point."
  | MaximumPoint =>
      "The surface lies below the xy-plane, suggesting a maximum point."
  | SaddlePoint =>
      "The surface has both positive and negative values. This indicates varying curvature or a possible saddle point."
  end.

(** [surface_explanation] on the elements of the height field. *)
Definition classify (l : list fval) : outcome Explanation :=
  lo <- nanmin l ;;
  if fleb (Fin 0) lo then Ok MinimumPoint
  else
    hi <- nanmax l ;;
    if fleb hi (Fin 0) then Ok MaximumPoint
    else Ok SaddlePoint.

Definition elements (Z : pyval) : option (list fval) :=
  match Z with
  | PNum v => Some [v]
  | PArr a => Some (List.concat a)
  | PSym | PObj => None
  end.

Definition surface_explanation (Z : pyval) : outcome string :=
  match elements Z with
  | Some l => e <- classify l ;; Ok (explanation_text e)
  | None => Unmodelled
  end.

(** The classification in the words of the specification: the non-finite
    values, NaN and the infinities, are left out of the comparison. *)
Definition spec_classify (l : list fval) : Explanation :=
  let finite := filter is_finite l in
  if forallb (fun v => fleb (Fin 0) v) finite then MinimumPoint
  else if forallb (fun v => fleb v (Fin 0)) finite then MaximumPoint
  else SaddlePoint.

(* ===================================================================== *)
(** * The script *)
(* ===================================================================== *)

(** ** Widgets and page elements *)

Inductive VarType : Type := TwoVariables | ThreeVariables.

Definition var_type_label (v : VarType) : string :=
  match v with
  | TwoVariables => "Two variables: f(x, y)"
  | ThreeVariables => "Three variables: f(x, y, z)"
  end.

Inductive Topic : Type :=
| Visualization
| PartialDerivatives
| Gradient
| Differentials.

Definition topic_label (t : Topic) : string :=
  match t with
  | Visualization => "Meaning & Visualization"
  | PartialDerivatives => "Partial Derivatives"
  | Gradient => "Gradient & Steepest Ascent"
  | Differentials => "Differentials"
  end.

(** What the user has set in the widgets when the script runs. *)
Record Input : Type := {
  var_type : VarType;
  func_input : string;
  topic : Topic;
  z0 : Q;
  x0 : Q;
  y0 : Q;
  dx : Q;
  dy : Q
}.

(** The figure that [plot_surface] builds. *)
Record Figure : Type := {
  fig_x : list (list fval);
  fig_y : list (list fval);
  fig_z : pyval;
  fig_colorscale : string;
  fig_xaxis_title : string;
  fig_yaxis_title : string;
  fig_zaxis_title : string;
  fig_margin : Z * Z * Z * Z
}.

Definition plot_surface (Xa Ya : list (list fval)) (Za : pyval) : Figure :=
  {| fig_x := Xa; fig_y := Ya; fig_z := Za;
     fig_colorscale := "Viridis";
     fig_xaxis_title := "x"; fig_yaxis_title := "y";
     fig_zaxis_title := "f(x,y)";
     fig_margin := (0, 0, 0, 40)%Z |}.

(** The elements that a run puts on the page, in order. *)
Inductive Elem : Type :=
| ETitle (s : string)
| EText (s : string)
| ESelectbox (label : string) (options : list string)
| ETextInput (label : string) (default : string)
| ESlider (label : string) (lo hi default : Q)
| ENumberInput (label : string) (default : Q)
| EError (s : string)
| EMarkdown (s : string)
| ESubheader (s : string)
| ELatex (s : string)
| EInfo (s : string)
| EPlotlyChart (fig : Figure).

(** How a run ends: the script reached its last line, [st.stop()] ended it,
    or it left the model. *)
Inductive Status : Type := Completed | Stopped | NotModelled.

(** ** A run as a computation that writes elements and may halt *)

Inductive step (A : Type) : Type :=
| Next (out : list Elem) (a : A)
| Halt (out : list Elem) (st : Status).

Arguments Next {A} out a.
Arguments Halt {A} out st.

Definition Script (A : Type) : Type := list Elem -> step A.

Definition ret {A} (a : A) : Script A := fun out => Next out a.

Definition bind {A B} (m : Script A) (k : A -> Script B) : Script B :=
  fun out =>
    match m out with
    | Next out' a => k a out'
    | Halt out' st => Halt out' st
    end.

Declare Scope script_scope.
Delimit Scope script_scope with script.
Notation "x <~ m ;; k" := (bind m (fun x => k))
  (at level 61, m at next level, right associativity) : script_scope.
Notation "m ;;; k" := (bind m (fun _ => k))
  (at level 61, right associativity) : script_scope.

Definition emit (el : Elem) : Script unit := fun out => Next (out ++ [el])%list tt.

Definition st_stop {A} : Script A := fun out => Halt out Stopped.

Definition leave_model {A} : Script A := fun out => Halt out NotModelled.

(** [try: ... except: ...] around one library call. *)
Definition try_except {A} (o : outcome A) (handler : Script A) : Script A :=
  match o with
  | Ok a => ret a
  | Raise _ => handler
  | Unmodelled => leave_model
  end.

(** A library call outside any [try]. *)
Definition call_lib {A} (o : outcome A) : Script A :=
  match o with
  | Ok a => ret a
  | _ => leave_model
  end.

(** [st.plotly_chart].  What the plotting library does with a height field
    that is not an array of floats is outside the model. *)
Definition st_plotly_chart (fig : Figure) : Script unit :=
  match fig_z fig with
  | PArr _ => emit (EPlotlyChart fig)
  | _ => leave_model
  end.

Definition run (m : Script unit) : list Elem * Status :=
  match m [] with
  | Next out _ => (out, Completed)
  | Halt out st => (out, st)
  end.

(** ** The texts of the script *)

Definition title_text : string :=
  "📊 Interactive Multivariable Functions Explorer".

Definition intro_text : string :=
  "This app helps you explore functions of several variables using interactive graphs. You can rotate, zoom, and analyze how the surface behaves.".

Definition parse_error_text : string :=
  "❌ Invalid function input.".

Definition parse_help_text : string :=
  "
        **Please check the following:**
        - Use `**` for powers (example: `x**2`)
        - Use `sin(x)`, not `sin x`
        - Use `log(x)` for natural logarithm
        - Allowed variables: x, y, z
        
        **Examples of valid inputs:**
        - `sin(x) + cos(y)`
        - `x**2 + y**2`
        - `exp(x*y)`
        - `x**2 + y**2 + z**2`
        ".

Definition eval_error_text : string :=
  "⚠️ The function cannot be evaluated on the selected domain.

This may happen due to division by zero or invalid values (e.g. log(x) for x ≤ 0).".

Definition visualization_text : string :=
  "The graph represents the surface **z = f(x, y)**. Rotate and zoom the graph to understand how the function behaves.".

Definition partial_text : string :=
  "Partial derivatives describe how the surface changes when one variable changes while the other is held constant.".

Definition gradient_text : string :=
  "The gradient vector points in the direction of steepest ascent on the surface.".

Definition differentials_text : string :=
  "The differential provides a linear approximation of how the function value changes near a point.".

(** ** The script, top to bottom *)

Section App.

(** The numeric library and [sympy.latex], whose output is not modelled. *)
Variable lib : NumLib.
Variable latex : Expr -> string.

Local Open Scope script_scope.

Definition default_func (v : VarType) : string :=
  match v with
  | TwoVariables => "sin(x) + cos(y)"
  | ThreeVariables => "x**2 + y**2 + z**2"
  end.

(** Lines 1 to 29: the title, the introduction and the two widgets that
    come before parsing ([st.set_page_config] puts nothing on the page,
    [st.write] puts a text). *)
Definition header (inp : Input) : Script unit :=
  emit (ETitle title_text) ;;;
  emit (EText intro_text) ;;;
  emit (ESelectbox "Select function type:"
          [var_type_label TwoVariables; var_type_label ThreeVariables]) ;;;
  emit (ETextInput "Enter your function:" (default_func (var_type inp))).

(** Lines 44 to 63: parsing inside [try], the two messages and
    [st.stop()] in the handler. *)
Definition parse_stage (inp : Input) : Script Expr :=
  try_except (sympify (func_input inp) allowed_funcs)
    (emit (EError parse_error_text) ;;;
     emit (EMarkdown parse_help_text) ;;;
     st_stop).

Definition topic_selector : Script unit :=
  emit (ESelectbox "Choose a topic:"
          [topic_label Visualization; topic_label PartialDerivatives;
           topic_label Gradient; topic_label Differentials]).

(** The slice value as the library receives it: a Float. *)
Definition slice_value (inp : Input) : Expr := Num (Qred (z0 inp)) true.

(** Lines 87 to 91: [f_eval]. *)
Definition f_eval (inp : Input) (f : Expr) : Expr :=
  match var_type inp with
  | ThreeVariables => subs "z" (slice_value inp) f
  | TwoVariables => f
  end.

Definition slice_stage (inp : Input) (f : Expr) : Script Expr :=
  match var_type inp with
  | ThreeVariables =>
      emit (ESlider "Fix z value (slice):" (-5) 5 0) ;;;
      ret (f_eval inp f)
  | TwoVariables => ret (f_eval inp f)
  end.

(** Lines 94 to 102: conversion and evaluation inside [try] with a bare
    [except], the message and [st.stop()] in the handler. *)
Definition eval_stage (fe : Expr) : Script pyval :=
  try_except (f_lamb lib fe X Y)
    (emit (EError eval_error_text) ;;; st_stop).

Definition show_surface (Za : pyval) : Script unit :=
  st_plotly_chart (plot_surface X Y Za).

(** Lines 136 to 204: the four topics. *)
Definition topic_stage (inp : Input) (fe : Expr) (Za : pyval) : Script unit :=
  match topic inp with
  | Visualization =>
      emit (ESubheader "🔹 Meaning & Visualization") ;;;
      emit (EText visualization_text) ;;;
      show_surface Za ;;;
      text <~ call_lib (surface_explanation Za) ;;
      emit (EInfo text)
  | PartialDerivatives =>
      emit (ESubheader "🔹 Partial Derivatives") ;;;
      let fx := diff fe "x" in
      let fy := diff fe "y" in
      emit (ELatex ("\frac{\partial f}{\partial x} = " ++ latex fx)) ;;;
      emit (ELatex ("\frac{\partial f}{\partial y} = " ++ latex fy)) ;;;
      emit (ENumberInput "x₀:" 1) ;;;
      emit (ENumberInput "y₀:" 1) ;;;
      emit (EText partial_text) ;;;
      show_surface Za
  | Gradient =>
      emit (ESubheader "🔹 Gradient & Steepest Ascent") ;;;
      let fx := diff fe "x" in
      let fy := diff fe "y" in
      emit (ELatex ("\nabla f = \left(" ++ latex fx ++ ", " ++ latex fy
                      ++ "\right)")) ;;;
      emit (EText gradient_text) ;;;
      show_surface Za
  | Differentials =>
      emit (ESubheader "🔹 Differentials") ;;;
      let fx := diff fe "x" in
      let fy := diff fe "y" in
      emit (ENumberInput "dx:" (1 # 10)) ;;;
      emit (ENumberInput "dy:" (1 # 10)) ;;;
      emit (ELatex "df = f_x dx + f_y dy") ;;;
      emit (EText differentials_text) ;;;
      show_surface Za
  end.

Definition script (inp : Input) : Script unit :=
  header inp ;;;
  f <~ parse_stage inp ;;
  topic_selector ;;;
  fe <~ slice_stage inp f ;;
  Za <~ eval_stage fe ;;
  topic_stage inp fe Za.

(** One interaction: the elements shown and how the run ended. *)
Definition app (inp : Input) : list Elem * Status := run (script inp).

(** The height field of an interaction, when the run gets that far. *)
Definition height_field (inp : Input) : outcome pyval :=
  f <- sympify (func_input inp) allowed_funcs ;;
  f_lamb lib (f_eval inp f) X Y.

(** The partial derivatives that the three derivative topics compute. *)
Definition partials (inp : Input) (f : Expr) : Expr * Expr :=
  (diff (f_eval inp f) "x", diff (f_eval inp f) "y").

End App.

(** ** Reading a page *)

Definition is_chart (el : Elem) : bool :=
  match el with EPlotlyChart _ => true | _ => false end.

(** The elements that only a topic produces. *)
Definition is_topic_output (el : Elem) : bool :=
  match el with
  | ESubheader _ | ELatex _ | EInfo _ | ENumberInput _ _ | EPlotlyChart _ => true
  | _ => false
  end.

Definition shows_error (msg : string) (page : list Elem) : bool :=
  existsb (fun el => match el with EError s => String.eqb s msg | _ => false end)
          page.

Definition any_error (page : list Elem) : bool :=
  existsb (fun el => match el with EError _ => true | _ => false end) page.

(* ===================================================================== *)
(** * Notions used in the statements *)
(* ===================================================================== *)

(** A numeric library for the runs in which no transcendental function is
    evaluated. *)
Definition null_lib : NumLib :=
  {| lib_fun := fun _ _ => NaN; lib_sqrt := fun _ => NaN;
     lib_pow := fun _ _ => NaN |}.

(** A printer for the runs whose formulas are not looked at. *)
Definition null_latex (e : Expr) : string := "".

(** An interaction with the widgets at their defaults, except for the
    mode, the text and the topic. *)
Definition interaction (v : VarType) (text : string) (t : Topic) : Input :=
  {| var_type := v; func_input := text; topic := t;
     z0 := 0; x0 := 1; y0 := 1; dx := 1 # 10; dy := 1 # 10 |}.

Definition with_slice (inp : Input) (v : Q) : Input :=
  {| var_type := var_type inp; func_input := func_input inp;
     topic := topic inp; z0 := v;
     x0 := x0 inp; y0 := y0 inp; dx := dx inp; dy := dy inp |}.

(** The allowed vocabulary: the variables and the names of
    [allowed_funcs]. *)
Definition allowed_vocabulary : list string :=
  (["x"; "y"; "z"] ++ map fst allowed_funcs)%list.

(** The identifiers of a parsed text. *)
Fixpoint identifiers (a : PyExpr) : list string :=
  match a with
  | PyInt _ => []
  | PyName s _ => [s]
  | PyNeg x | PyPos x => identifiers x
  | PyBin _ x y => (identifiers x ++ identifiers y)%list
  | PyCall f args => (identifiers f ++ flat_map identifiers args)%list
  end.

Definition outside_vocabulary (a : PyExpr) : bool :=
  existsb (fun s => negb (in_names s allowed_vocabulary)) (identifiers a).

(** The error of an interaction, by the message that reports it: a
    ParseError when [sympify] raises, an EvaluationError when the numeric
    conversion or evaluation raises. *)
Definition error_of (lib : NumLib) (inp : Input) : option string :=
  match sympify (func_input inp) allowed_funcs with
  | Raise _ => Some parse_error_text
  | Unmodelled => None
  | Ok f =>
      match f_lamb lib (f_eval inp f) X Y with
      | Raise _ => Some eval_error_text
      | _ => None
      end
  end.

(** The elements on the page before the topic: the header, the topic
    selector after a successful parse, the slider in three-variable mode. *)
Definition header_elems (inp : Input) : list Elem :=
  [ETitle title_text; EText intro_text;
   ESelectbox "Select function type:"
     [var_type_label TwoVariables; var_type_label ThreeVariables];
   ETextInput "Enter your function:" (default_func (var_type inp))].

Definition selector_elems (inp : Input) : list Elem :=
  ESelectbox "Choose a topic:"
    [topic_label Visualization; topic_label PartialDerivatives;
     topic_label Gradient; topic_label Differentials]
  :: match var_type inp with
     | ThreeVariables => [ESlider "Fix z value (slice):" (-5) 5 0]
     | TwoVariables => []
     end.

(** The classification that the code computes, in words: NaN is left out of
    the comparison, the infinities take part in it, and a field with no
    value but NaN gets the third statement. *)
Definition not_nan (v : fval) : bool := negb (is_nan v).

Definition nan_classify (l : list fval) : Explanation :=
  let real := filter not_nan l in
  match real with
  | [] => SaddlePoint
  | _ =>
      if forallb (fun v => fleb (Fin 0) v) real then MinimumPoint
      else if forallb (fun v => fleb v (Fin 0)) real then MaximumPoint
      else SaddlePoint
  end.

(** A value below zero, a value above zero. *)
Definition below_zero (v : fval) : bool := negb (is_nan v) && negb (fleb (Fin 0) v).
Definition above_zero (v : fval) : bool := negb (is_nan v) && negb (fleb v (Fin 0)).

(** All the elements of a two-dimensional array are finite. *)
Definition all_finite (a : list (list fval)) : bool := forallb (forallb is_finite) a.

(** The [k]-th sample of the grid in exact arithmetic. *)
Definition sample (k : nat) : Q := -5 + inject_Z (Z.of_nat k) * (10 # 59).

(** A value is not below zero, or not above zero, or is NaN. *)
Definition ge0 (v : fval) : bool := is_nan v || fleb (Fin 0) v.
Definition le0 (v : fval) : bool := is_nan v || fleb v (Fin 0).

(** The symbol [s] is not among the free symbols of an expression, or of
    an entry of the table of gathered powers. *)
Definition not_mentioned (s : string) (e : Expr) : Prop := mentions s e = false.

Definition not_mentioned_g (s : string) (g : gathered) : Prop :=
  not_mentioned s (g_base g) /\ not_mentioned s (g_exp g)
  /\ not_mentioned s (g_orig g).

(** An array value has the shape of the grid array [Xa], row by row. *)
Definition aligned_value (Xa : list (list fval)) (v : pyval) : Prop :=
  match v with
  | PArr m => same_shape m Xa = true
  | _ => True
  end.

(** The formulas that a topic shows for the partial derivatives. *)
Definition shown_partials (latex : Expr -> string) (t : Topic) (fx fy : Expr)
  : list Elem :=
  match t with
  | PartialDerivatives =>
      [ELatex ("\frac{\partial f}{\partial x} = " ++ latex fx);
       ELatex ("\frac{\partial f}{\partial y} = " ++ latex fy)]
  | Gradient =>
      [ELatex ("\nabla f = \left(" ++ latex fx ++ ", " ++ latex fy ++ "\right)")]
  | Visualization | Differentials => []
  end.

(** The default function of the three-variable mode, parsed. *)
Definition sum_of_squares : Expr :=
  Add [Pow (Sym "x") (Num 2 false); Pow (Sym "y") (Num 2 false);
       Pow (Sym "z") (Num 2 false)].

(* ===================================================================== *)
(** * Further notions used in the statements *)
(* ===================================================================== *)

(** The entry in row [i] and column [j] of a two-dimensional array. *)
Definition entry (i j : nat) (a : list (list fval)) : fval :=
  nth j (nth i a []) NaN.

(** A value of the generated function read at one grid point: an array
    gives its entry, any other value is the same at every point. *)
Definition at_point (i j : nat) (v : pyval) : pyval :=
  match v with
  | PArr a => PArr [[entry i j a]]
  | _ => v
  end.

(** The grid that holds the single point [(i, j)] of [Xa]. *)
Definition point_grid (i j : nat) (Xa : list (list fval)) : list (list fval) :=
  [[entry i j Xa]].

(** The position [(i, j)] lies inside the array. *)
Definition in_bounds (i j : nat) (a : list (list fval)) : Prop :=
  (i < List.length a)%nat /\ (j < List.length (nth i a []))%nat.

(** Every symbol of the expression is one of [names]. *)
Fixpoint symbols_in (names : list string) (e : Expr) : bool :=
  match e with
  | Sym t => in_names t names
  | Add l | Mul l | UndefApp _ l => forallb (symbols_in names) l
  | Pow b x => symbols_in names b && symbols_in names x
  | Fn _ a => symbols_in names a
  | Num _ _ | Pi | Beyond => true
  end.

(** A value made of floats: a scalar or an array, not a symbolic one. *)
Definition is_float (v : pyval) : bool :=
  match v with PNum _ | PArr _ => true | PSym | PObj => false end.

(** A value that is no array. *)
Definition no_array (v : pyval) : bool :=
  match v with PNum _ | PSym => true | PArr _ | PObj => false end.

(** Kinds of page elements. *)
Definition is_error (el : Elem) : bool :=
  match el with EError _ => true | _ => false end.

Definition is_info (el : Elem) : bool :=
  match el with EInfo _ => true | _ => false end.

Definition is_slider (el : Elem) : bool :=
  match el with ESlider _ _ _ _ => true | _ => false end.

Definition is_topic_selector (el : Elem) : bool :=
  match el with
  | ESelectbox label _ => String.eqb label "Choose a topic:"
  | _ => false
  end.

(** The elements that a topic may put on the page: its own outputs and
    its texts. *)
Definition is_topic_elem (el : Elem) : bool :=
  match el with
  | EText _ => true
  | _ => is_topic_output el
  end.

(** The subheader of a topic. *)
Definition topic_subheader (t : Topic) : string :=
  match t with
  | Visualization => "🔹 Meaning & Visualization"
  | PartialDerivatives => "🔹 Partial Derivatives"
  | Gradient => "🔹 Gradient & Steepest Ascent"
  | Differentials => "🔹 Differentials"
  end.

(** The outcome of an evaluation that raises nothing: a value made of
    floats, or an outcome that the model does not determine. *)
Definition raises_nothing (o : outcome pyval) : Prop :=
  match o with
  | Ok v => is_float v = true
  | Raise _ => False
  | Unmodelled => True
  end.

(** The outcome of an evaluation that gives no array. *)
Definition gives_no_array (o : outcome pyval) : Prop :=
  match o with
  | Ok v => no_array v = true
  | _ => True
  end.

(** The elements that a topic puts on the page when the height field is
    the array [a]: lines 136 to 206 without the calls that may fail. *)
Definition topic_page (latex : Expr -> string) (t : Topic) (fe : Expr)
           (a : list (list fval)) : list Elem :=
  match t with
  | Visualization =>
      [ESubheader (topic_subheader Visualization);
       EText visualization_text;
       EPlotlyChart (plot_surface X Y (PArr a));
       EInfo (explanation_text (nan_classify (List.concat a)))]
  | PartialDerivatives =>
      [ESubheader (topic_subheader PartialDerivatives);
       ELatex ("\frac{\partial f}{\partial x} = " ++ latex (diff fe "x"));
       ELatex ("\frac{\partial f}{\partial y} = " ++ latex (diff fe "y"));
       ENumberInput "x₀:" 1;
       ENumberInput "y₀:" 1;
       EText partial_text;
       EPlotlyChart (plot_surface X Y (PArr a))]
  | Gradient =>
      [ESubheader (topic_subheader Gradient);
       ELatex ("\nabla f = \left(" ++ latex (diff fe "x") ++ ", "
                 ++ latex (diff fe "y") ++ "\right)");
       EText gradient_text;
       EPlotlyChart (plot_surface X Y (PArr a))]
  | Differentials =>
      [ESubheader (topic_subheader Differentials);
       ENumberInput "dx:" (1 # 10);
       ENumberInput "dy:" (1 # 10);
       ELatex "df = f_x dx + f_y dy";
       EText differentials_text;
       EPlotlyChart (plot_surface X Y (PArr a))]
  end.

(* ===================================================================== *)
(** * Induction on expressions and structural equality *)
(* ===================================================================== *)

Lemma Expr_ind' (P : Expr -> Prop) :
  (forall q f, P (Num q f)) ->
  (forall s, P (Sym s)) ->
  P Pi ->
  (forall l, Forall P l -> P (Add l)) ->
  (forall l, Forall P l -> P (Mul l)) ->
  (forall b x, P b -> P x -> P (Pow b x)) ->
  (forall f a, P a -> P (Fn f a)) ->
  (forall n l, Forall P l -> P (UndefApp n l)) ->
  P Beyond ->
  forall e, P e.
Proof.
  intros HNum HSym HPi HAdd HMul HPow HFn HUndef HBeyond.
  fix IH 1. intros e.
  assert (HL : forall l, Forall P l).
  { induction l as [|x r IHr]; constructor; [apply IH | exact IHr]. }
  destruct e.
  - apply HNum.
  - apply HSym.
  - apply HPi.
  - apply HAdd, HL.
  - apply HMul, HL.
  - apply HPow; apply IH.
  - apply HFn; apply IH.
  - apply HUndef, HL.
  - apply HBeyond.
Qed.

Lemma q_eqb_eq (a b : Q) : q_eqb a b = true -> a = b.
Proof.
  unfold q_eqb. destruct a as [n d], b as [n' d']; simpl.
  rewrite andb_true_iff, Z.eqb_eq, Pos.eqb_eq. intros [-> ->]. reflexivity.
Qed.

Lemma func_eqb_eq (f g : Func) : func_eqb f g = true -> f = g.
Proof. destruct f, g; simpl; congruence. Qed.

Lemma expr_eqb_eq (a : Expr) : forall b, expr_eqb a b = true -> a = b.
Proof.
  induction a using Expr_ind'; intros b E; destruct b; simpl in E; try discriminate.
  - apply andb_true_iff in E. destruct E as [E1 E2].
    apply q_eqb_eq in E1. apply Bool.eqb_prop in E2. congruence.
  - apply String.eqb_eq in E. congruence.
  - reflexivity.
  - f_equal. revert args E. induction H as [|x r Hx Hr IH]; intros [|y t] E;
      try discriminate; [reflexivity|].
    apply andb_true_iff in E. destruct E as [E1 E2].
    f_equal; [apply Hx, E1 | apply IH, E2].
  - f_equal. revert args E. induction H as [|x r Hx Hr IH]; intros [|y t] E;
      try discriminate; [reflexivity|].
    apply andb_true_iff in E. destruct E as [E1 E2].
    f_equal; [apply Hx, E1 | apply IH, E2].
  - apply andb_true_iff in E. destruct E as [E1 E2].
    f_equal; [apply IHa1, E1 | apply IHa2, E2].
  - apply andb_true_iff in E. destruct E as [E1 E2].
    apply func_eqb_eq in E1. f_equal; [exact E1 | apply IHa, E2].
  - apply andb_true_iff in E. destruct E as [E1 E2].
    apply String.eqb_eq in E1. f_equal; [exact E1|].
    revert args E2. induction H as [|x r Hx Hr IH]; intros [|y t] E;
      try discriminate; [reflexivity|].
    apply andb_true_iff in E. destruct E as [E1' E2'].
    f_equal; [apply Hx, E1' | apply IH, E2'].
  - reflexivity.
Qed.

Lemma exprs_eqb_eq (l l' : list Expr) : exprs_eqb l l' = true -> l = l'.
Proof.
  revert l'. induction l as [|x r IH]; intros [|y t] E; try discriminate; [reflexivity|].
  simpl in E. apply andb_true_iff in E. destruct E as [E1 E2].
  f_equal; [apply expr_eqb_eq, E1 | apply IH, E2].
Qed.

(* ===================================================================== *)
(** * Free symbols under the constructors, substitution and differentiation *)
(* ===================================================================== *)

Section NotMentioned.

Variable s : string.

Local Abbreviation absent := (not_mentioned s).
Local Abbreviation absent_g := (not_mentioned_g s).

Lemma absent_list (l : list Expr) :
  Forall absent l <-> existsb (mentions s) l = false.
Proof.
  induction l as [|a l IH]; simpl.
  - split; [reflexivity | constructor].
  - rewrite orb_false_iff, <- IH. split.
    + intros H. inversion H; subst. split; assumption.
    + intros [H1 H2]. constructor; assumption.
Qed.

Lemma absent_Add l : Forall absent l -> absent (Add l).
Proof. intros H. apply absent_list in H. exact H. Qed.
Lemma absent_Mul l : Forall absent l -> absent (Mul l).
Proof. intros H. apply absent_list in H. exact H. Qed.
Lemma absent_Add_inv l : absent (Add l) -> Forall absent l.
Proof. intros H. apply absent_list. exact H. Qed.
Lemma absent_Mul_inv l : absent (Mul l) -> Forall absent l.
Proof. intros H. apply absent_list. exact H. Qed.

Lemma absent_Pow b x : absent b -> absent x -> absent (Pow b x).
Proof. unfold not_mentioned. simpl. intros -> ->. reflexivity. Qed.

Lemma absent_Pow_inv b x : absent (Pow b x) -> absent b /\ absent x.
Proof. unfold not_mentioned. simpl. apply orb_false_iff. Qed.

Lemma absent_mk_num q f : absent (mk_num q f).
Proof. unfold not_mentioned, mk_num. destruct (Qeq_bool q 0); reflexivity. Qed.

Lemma absent_of_coef c : absent (of_coef c).
Proof. reflexivity. Qed.

Lemma absent_pow_core b e : absent b -> absent e -> absent (pow_core b e).
Proof.
  unfold not_mentioned. intros Hb He. unfold pow_core.
  repeat match goal with
  | |- mentions s (if ?c then _ else _) = false => destruct c
  | |- mentions s (match ?x with _ => _ end) = false => destruct x
  | |- mentions s (mk_num _ _) = false => apply absent_mk_num
  | H : mentions s (Pow _ _) = false |- _ =>
      apply absent_Pow_inv in H; destruct H
  end; simpl in *; try reflexivity; try assumption;
  try (rewrite ?Hb, ?He; reflexivity);
  try (unfold not_mentioned in *; repeat match goal with H : _ = false |- _ => rewrite H end; reflexivity).
all: unfold not_mentioned in *; simpl in *;
  repeat match goal with
         | H : _ || _ = false |- _ => apply orb_false_iff in H; destruct H
         end;
  repeat match goal with H : _ = false |- _ => rewrite H end; reflexivity.
Qed.

Lemma absent_mul_factors e : absent e -> Forall absent (mul_factors e).
Proof.
  induction e using Expr_ind'; intros A; simpl;
    try (constructor; [exact A | constructor]).
  apply absent_Mul_inv in A.
  induction H as [|x r Hx Hr IH]; simpl; [constructor|].
  inversion A; subst. apply Forall_app. split; [apply Hx; assumption | apply IH; assumption].
Qed.

Lemma absent_add_terms e : absent e -> Forall absent (add_terms e).
Proof.
  induction e using Expr_ind'; intros A; simpl;
    try (constructor; [exact A | constructor]).
  apply absent_Add_inv in A.
  induction H as [|x r Hx Hr IH]; simpl; [constructor|].
  inversion A; subst. apply Forall_app. split; [apply Hx; assumption | apply IH; assumption].
Qed.

Lemma absent_flat_map (f : Expr -> list Expr) (l : list Expr) :
  (forall e, absent e -> Forall absent (f e)) ->
  Forall absent l -> Forall absent (flat_map f l).
Proof.
  intros Hf H. induction H as [|x r Hx Hr IH]; simpl; [constructor|].
  apply Forall_app. split; [apply Hf, Hx | exact IH].
Qed.

Lemma absent_as_base_exp o :
  absent o -> absent (fst (as_base_exp o)) /\ absent (snd (as_base_exp o)).
Proof.
  intros A. destruct o; simpl; try (split; [exact A | reflexivity]).
  apply absent_Pow_inv in A. exact A.
Qed.

Lemma absent_gather_insert o gs gs' :
  absent o -> Forall absent_g gs -> gather_insert o gs = Some gs' ->
  Forall absent_g gs'.
Proof.
  intros Ao. revert gs'. induction gs as [|g r IH]; intros gs' Hgs E; simpl in E.
  - destruct (as_base_exp o) as [b x] eqn:Eb.
    pose proof (absent_as_base_exp Ao) as [Hb Hx]. rewrite Eb in Hb, Hx.
    inversion E; subst. constructor; [|constructor].
    repeat split; assumption.
  - destruct (as_base_exp o) as [b x] eqn:Eb.
    pose proof (absent_as_base_exp Ao) as [Hb Hx]. rewrite Eb in Hb, Hx.
    simpl in Hb, Hx. inversion Hgs as [|g' r' Hg Hr]; subst.
    destruct (expr_eqb b (g_base g)).
    + destruct x; try discriminate. destruct (g_exp g); try discriminate.
      inversion E; subst. constructor; [|exact Hr].
      destruct Hg as (? & ? & ?). repeat split; simpl; try assumption; try reflexivity.
    + destruct (gather_insert o r) as [r''|] eqn:Er; [|discriminate].
      inversion E; subst. constructor; [exact Hg | apply IH; [exact Hr | reflexivity]].
Qed.

Lemma absent_mul_loop fs : forall c gs c' gs',
  Forall absent fs -> Forall absent_g gs ->
  mul_loop fs c gs = Some (c', gs') -> Forall absent_g gs'.
Proof.
  induction fs as [|o r IH]; intros c gs c' gs' Hfs Hgs E; simpl in E.
  - inversion E; subst. exact Hgs.
  - inversion Hfs as [|o' r' Ho Hr]; subst.
    destruct o;
      try (destruct (gather_insert _ gs) as [gs1|] eqn:Eg; [|discriminate];
           eapply IH; [exact Hr | eapply absent_gather_insert; [exact Ho | exact Hgs | exact Eg] | exact E]).
    eapply IH; [exact Hr | exact Hgs | exact E].
Qed.

Lemma absent_gathered_factor g : absent_g g -> absent (gathered_factor g).
Proof.
  intros (Hb & Hx & Ho). unfold gathered_factor.
  destruct (g_merged g); [apply absent_pow_core; assumption | exact Ho].
Qed.

Lemma Forall_filter {A} (P : A -> Prop) (f : A -> bool) (l : list A) :
  Forall P l -> Forall P (filter f l).
Proof.
  induction 1 as [|x r Hx Hr IH]; simpl; [constructor|].
  destruct (f x); [constructor; assumption | exact IH].
Qed.

Lemma absent_pack (unit : Expr) (wrap : list Expr -> Expr) (args : list Expr) :
  absent unit -> (forall l, Forall absent l -> absent (wrap l)) ->
  Forall absent args ->
  absent (match args with [] => unit | [a] => a | _ => wrap args end).
Proof.
  intros Hu Hw H. destruct args as [|a [|b r]]; [exact Hu | inversion H; assumption | apply Hw, H].
Qed.

Lemma absent_mul_core l : Forall absent l -> absent (mul_core l).
Proof.
  intros H. unfold mul_core.
  destruct (existsb is_Beyond _); [reflexivity|].
  destruct (unmodelled_product _); [reflexivity|].
  destruct (mul_loop _ _ _) as [[c gs]|] eqn:E; [|reflexivity].
  assert (Hgs : Forall absent_g gs).
  { eapply absent_mul_loop; [| constructor | exact E].
    apply absent_flat_map; [apply absent_mul_factors | exact H]. }
  assert (Hf : Forall absent (filter (fun e => negb (is_One e)) (map gathered_factor gs))).
  { apply Forall_filter. apply Forall_map.
    eapply Forall_impl; [|exact Hgs]. intros g. apply absent_gathered_factor. }
  destruct (existsb is_Beyond _); [reflexivity|].
  destruct (existsb is_Num _); [reflexivity|].
  destruct (coef_is_zero c); [reflexivity|].
  apply absent_pack; [reflexivity | apply absent_Mul |].
  destruct (coef_is_One c); [exact Hf | constructor; [reflexivity | exact Hf]].
Qed.

Lemma absent_as_coeff_Mul e : absent e -> absent (snd (as_coeff_Mul e)).
Proof.
  intros A. destruct e; try exact A. destruct args as [|a r]; [exact A|].
  destruct a; try exact A. simpl.
  apply absent_Mul_inv in A. inversion A as [|? ? _ Hr]; subst.
  destruct r as [|b [|c t]]; [reflexivity | inversion Hr; assumption | apply absent_Mul, Hr].
Qed.

Lemma absent_term_insert x c ts :
  absent x -> Forall absent (map fst ts) -> Forall absent (map fst (term_insert x c ts)).
Proof.
  intros Ax. induction ts as [|[y k] r IH]; intros H; simpl.
  - constructor; [exact Ax | constructor].
  - inversion H; subst. destruct (expr_eqb x y); simpl; constructor; auto.
Qed.

Lemma absent_add_loop os : forall c ts,
  Forall absent os -> Forall absent (map fst ts) ->
  Forall absent (map fst (snd (add_loop os c ts))).
Proof.
  induction os as [|o r IH]; intros c ts Hos Hts; simpl; [exact Hts|].
  inversion Hos as [|o' r' Ho Hr]; subst.
  destruct o;
    try (match goal with
         | |- context [as_coeff_Mul ?e] =>
             pose proof (absent_as_coeff_Mul Ho) as Hs;
             destruct (as_coeff_Mul e) as [k x]; simpl in Hs;
             apply IH; [exact Hr | apply absent_term_insert; assumption]
         end).
  apply IH; assumption.
Qed.

Lemma absent_build_term x c : absent x -> Forall absent (build_term (x, c)).
Proof.
  intros A. unfold build_term.
  destruct (coef_is_zero c); [constructor|].
  destruct (coef_is_One c); [constructor; [exact A | constructor]|].
  destruct x;
    try (constructor; [apply absent_mul_core; repeat constructor; exact A | constructor]).
  constructor; [|constructor]. apply absent_Mul. constructor; [reflexivity|].
  apply absent_Mul_inv, A.
Qed.

Lemma absent_mk_add l : Forall absent l -> absent (mk_add l).
Proof.
  intros H. unfold mk_add.
  destruct (existsb is_Beyond _); [reflexivity|].
  pose proof (@absent_add_loop (flat_map add_terms l) (0, false) []
                (absent_flat_map _ absent_add_terms H) (Forall_nil _)) as Hts.
  destruct (add_loop _ _ _) as [c ts]. simpl in Hts.
  assert (Hn : Forall absent (flat_map build_term ts)).
  { clear -Hts. induction ts as [|[x k] r IH]; simpl; [constructor|].
    inversion Hts; subst. apply Forall_app. split; [apply absent_build_term; assumption | apply IH; assumption]. }
  destruct (existsb is_Beyond _); [reflexivity|].
  apply absent_pack; [reflexivity | apply absent_Add |].
  destruct (coef_is_zero c); [exact Hn | constructor; [reflexivity | exact Hn]].
Qed.

Lemma absent_mk_mul l : Forall absent l -> absent (mk_mul l).
Proof.
  intros H. unfold mk_mul. pose proof (absent_mul_core H) as Hc.
  destruct (mul_core l) as [| | | |args| | | |]; try exact Hc.
  destruct args as [|a [|b [|c r]]]; try exact Hc;
    destruct a; try exact Hc; destruct b; try exact Hc.
  apply absent_mk_add. apply Forall_map.
  apply absent_Mul_inv in Hc. inversion Hc as [|? ? _ Hb]; subst.
  inversion Hb as [|? ? Ha _]; subst. apply absent_Add_inv in Ha.
  eapply Forall_impl; [|exact Ha]. intros t Ht.
  apply absent_mul_core. constructor; [reflexivity | constructor; [exact Ht | constructor]].
Qed.

Lemma absent_mk_pow b e : absent b -> absent e -> absent (mk_pow b e).
Proof.
  intros Hb He. unfold mk_pow.
  destruct b; try (apply absent_pow_core; assumption).
  destruct e; try (apply absent_pow_core; assumption).
  destruct flt; try (apply absent_pow_core; assumption).
  destruct (_ && _); [|apply absent_pow_core; assumption].
  apply absent_mk_mul, Forall_map. apply absent_Mul_inv in Hb.
  eapply Forall_impl; [|exact Hb]. intros a Ha. apply absent_pow_core; assumption.
Qed.

Lemma absent_mk_fn f a : absent a -> absent (mk_fn f a).
Proof.
  intros A. unfold mk_fn.
  assert (Hn : absent (mk_mul [minus_one; a])).
  { apply absent_mk_mul. constructor; [reflexivity | constructor; [exact A | constructor]]. }
  destruct a; try reflexivity;
    (destruct (fn_guard f _); [reflexivity|];
     destruct (neg_coeff _); [|exact A];
     destruct (_ || _); [reflexivity|];
     destruct f; try exact Hn; try exact A).
  all: apply absent_mk_mul; constructor;
    [reflexivity | constructor; [exact Hn | constructor]].
Qed.

Lemma absent_mk_undef n l : Forall absent l -> absent (mk_undef n l).
Proof.
  intros H. unfold mk_undef. destruct (existsb is_Beyond l); [reflexivity|].
  apply absent_list in H. exact H.
Qed.

End NotMentioned.

Lemma absent_subs (s : string) (new : Expr) (e : Expr) :
  not_mentioned s new -> not_mentioned s (subs s new e).
Proof.
  intros Hn. induction e using Expr_ind'; simpl; try reflexivity.
  - destruct (String.eqb s0 s) eqn:E; [exact Hn|].
    unfold not_mentioned. simpl. rewrite String.eqb_sym. exact E.
  - assert (Hl : Forall (not_mentioned s) (map (subs s new) l)).
    { apply Forall_map. exact H. }
    destruct (exprs_eqb _ l) eqn:E.
    + apply exprs_eqb_eq in E. rewrite E in Hl. apply absent_Add, Hl.
    + apply absent_mk_add, Hl.
  - assert (Hl : Forall (not_mentioned s) (map (subs s new) l)).
    { apply Forall_map. exact H. }
    destruct (exprs_eqb _ l) eqn:E.
    + apply exprs_eqb_eq in E. rewrite E in Hl. apply absent_Mul, Hl.
    + apply absent_mk_mul, Hl.
  - destruct (expr_eqb _ e1 && expr_eqb _ e2) eqn:E.
    + apply andb_true_iff in E. destruct E as [E1 E2].
      apply expr_eqb_eq in E1, E2. rewrite E1 in IHe1. rewrite E2 in IHe2.
      apply absent_Pow; assumption.
    + apply absent_mk_pow; assumption.
  - destruct (expr_eqb _ e) eqn:E.
    + apply expr_eqb_eq in E. rewrite E in IHe. exact IHe.
    + apply absent_mk_fn, IHe.
  - assert (Hl : Forall (not_mentioned s) (map (subs s new) l)).
    { apply Forall_map. exact H. }
    destruct (exprs_eqb _ l) eqn:E.
    + apply exprs_eqb_eq in E. rewrite E in Hl. apply absent_list in Hl. exact Hl.
    + apply absent_mk_undef, Hl.
Qed.

Lemma absent_fold_mul (s : string) (l : list Expr) (a : Expr) :
  not_mentioned s a -> Forall (not_mentioned s) l -> not_mentioned s (fold_left e_mul l a).
Proof.
  revert a. induction l as [|x r IH]; intros a Ha Hl; simpl; [exact Ha|].
  inversion Hl; subst. apply IH; [|assumption].
  apply absent_mk_mul. constructor; [exact Ha | constructor; [assumption | constructor]].
Qed.

Lemma absent_product_terms (s : string) (l : list Expr) : forall pre ds,
  Forall (not_mentioned s) pre -> Forall (not_mentioned s) l -> Forall (not_mentioned s) ds ->
  Forall (not_mentioned s) (product_terms pre l ds).
Proof.
  induction l as [|a r IH]; intros pre ds Hp Hl Hd; simpl; [constructor|].
  destruct ds as [|d dr]; [constructor|].
  inversion Hl; subst. inversion Hd; subst.
  apply Forall_app. split.
  - destruct (is_zero d); [constructor|]. constructor; [|constructor].
    apply absent_fold_mul; [reflexivity|].
    apply Forall_app. split; [exact Hp | constructor; assumption].
  - apply IH; try assumption. apply Forall_app. split; [exact Hp | constructor; [assumption | constructor]].
Qed.

Lemma absent_e_mul s a b : not_mentioned s a -> not_mentioned s b -> not_mentioned s (e_mul a b).
Proof.
  intros Ha Hb. apply absent_mk_mul. constructor; [exact Ha | constructor; [exact Hb | constructor]].
Qed.

Lemma absent_e_add s a b : not_mentioned s a -> not_mentioned s b -> not_mentioned s (e_add a b).
Proof.
  intros Ha Hb. apply absent_mk_add. constructor; [exact Ha | constructor; [exact Hb | constructor]].
Qed.

Lemma absent_e_div s a b : not_mentioned s a -> not_mentioned s b -> not_mentioned s (e_div a b).
Proof.
  intros Ha Hb. unfold e_div.
  assert (Hd : not_mentioned s (mk_pow b minus_one)) by (apply absent_mk_pow; [exact Hb | reflexivity]).
  destruct (is_One a); [exact Hd | apply absent_e_mul; assumption].
Qed.

Lemma absent_fdiff s f a : not_mentioned s a -> not_mentioned s (fdiff f a).
Proof.
  intros Ha. destruct f; simpl.
  - apply absent_mk_fn, Ha.
  - apply absent_e_mul; [reflexivity | apply absent_mk_fn, Ha].
  - apply absent_e_add; [reflexivity|]. apply absent_Pow; [exact Ha | reflexivity].
  - exact Ha.
  - apply absent_e_div; [reflexivity | exact Ha].
Qed.

Lemma diff_unfold (e : Expr) (t : string) :
  diff e t =
  if has_beyond e then Beyond
  else if negb (mentions t e) then zero
  else
    match e with
    | Num _ _ | Pi => zero
    | Sym u => if String.eqb u t then one else zero
    | Add l => mk_add (map (fun a => diff a t) l)
    | Mul l => mk_add (product_terms [] l (map (fun a => diff a t) l))
    | Pow b x =>
        let db := diff b t in
        let dx := diff x t in
        e_mul e (e_add (e_mul dx (mk_fn Flog b)) (e_div (e_mul db x) b))
    | Fn f a =>
        let da := diff a t in
        if is_zero da then zero else mk_add [e_mul (fdiff f a) da]
    | UndefApp _ _ => Beyond
    | Beyond => Beyond
    end.
Proof. destruct e; reflexivity. Qed.

Lemma absent_diff (s t : string) (e : Expr) :
  not_mentioned s e -> not_mentioned s (diff e t).
Proof.
  induction e using Expr_ind'; intros A; rewrite diff_unfold;
    (destruct (has_beyond _); [reflexivity|]);
    (destruct (negb (mentions t _)); [reflexivity|]); try reflexivity.
  - destruct (String.eqb s0 t); reflexivity.
  - apply absent_mk_add, Forall_map. apply absent_Add_inv in A.
    clear -H A. induction H; inversion A; subst; constructor; auto.
  - apply absent_Mul_inv in A.
    apply absent_mk_add, absent_product_terms; [constructor | exact A |].
    apply Forall_map. clear -H A. induction H; inversion A; subst; constructor; auto.
  - apply absent_Pow_inv in A. destruct A as [A1 A2]. cbv zeta.
    apply absent_e_mul; [apply absent_Pow; assumption|].
    apply absent_e_add.
    + apply absent_e_mul; [auto | apply absent_mk_fn, A1].
    + apply absent_e_div; [apply absent_e_mul; auto | exact A1].
  - cbv zeta. destruct (is_zero _); [reflexivity|].
    apply absent_mk_add. constructor; [|constructor].
    apply absent_e_mul; [apply absent_fdiff, A | apply IHe, A].
Qed.

Lemma subs_replace_everywhere (var : string) (v : Expr) (e : Expr) :
  evaluated e = true -> subs var v e = replace_everywhere var v e.
Proof.
  induction e using Expr_ind'; intros Ev; simpl in *; try reflexivity.
  - apply andb_true_iff in Ev. destruct Ev as [Ea Ec].
    assert (Hl : map (subs var v) l = map (replace_everywhere var v) l).
    { clear Ec. induction H as [|x r Hx Hr IH]; [reflexivity|].
      simpl in Ea. apply andb_true_iff in Ea. destruct Ea. simpl. f_equal; auto. }
    rewrite <- Hl. destruct (exprs_eqb _ l) eqn:E; [|reflexivity].
    apply exprs_eqb_eq in E. rewrite E. apply expr_eqb_eq in Ec. symmetry. exact Ec.
  - apply andb_true_iff in Ev. destruct Ev as [Ea Ec].
    assert (Hl : map (subs var v) l = map (replace_everywhere var v) l).
    { clear Ec. induction H as [|x r Hx Hr IH]; [reflexivity|].
      simpl in Ea. apply andb_true_iff in Ea. destruct Ea. simpl. f_equal; auto. }
    rewrite <- Hl. destruct (exprs_eqb _ l) eqn:E; [|reflexivity].
    apply exprs_eqb_eq in E. rewrite E. apply expr_eqb_eq in Ec. symmetry. exact Ec.
  - apply andb_true_iff in Ev. destruct Ev as [Ea Ec].
    apply andb_true_iff in Ea. destruct Ea as [E1 E2].
    rewrite <- (IHe1 E1), <- (IHe2 E2).
    destruct (expr_eqb _ e1 && expr_eqb _ e2) eqn:E; [|reflexivity].
    apply andb_true_iff in E. destruct E as [F1 F2].
    apply expr_eqb_eq in F1, F2. rewrite F1, F2.
    apply expr_eqb_eq in Ec. symmetry. exact Ec.
  - apply andb_true_iff in Ev. destruct Ev as [Ea Ec].
    rewrite <- (IHe Ea).
    destruct (expr_eqb _ e) eqn:E; [|reflexivity].
    apply expr_eqb_eq in E. rewrite E. apply expr_eqb_eq in Ec. symmetry. exact Ec.
  - apply andb_true_iff in Ev. destruct Ev as [Ea Ec].
    assert (Hl : map (subs var v) l = map (replace_everywhere var v) l).
    { clear Ec. induction H as [|x r Hx Hr IH]; [reflexivity|].
      simpl in Ea. apply andb_true_iff in Ea. destruct Ea. simpl. f_equal; auto. }
    rewrite <- Hl. destruct (exprs_eqb _ l) eqn:E; [|reflexivity].
    apply exprs_eqb_eq in E. rewrite E. apply expr_eqb_eq in Ec. symmetry. exact Ec.
Qed.

(** The expressions that parsing returns are evaluated; here on the inputs
    that the script and its specification name. *)
Lemma parsed_examples_are_evaluated :
  forallb (fun text =>
             match sympify text allowed_funcs with
             | Ok e => evaluated e
             | _ => false
             end)
          ["sin(x) + cos(y)"; "x**2 + y**2"; "exp(x*y)"; "x**2 + y**2 + z**2";
           "log(x)"; "1/x"; "5"; "foo(x)"; "w + 1"; "pi*x"; "x*z"; "1/(x - 5)"]
  = true.
Proof. vm_compute. reflexivity. Qed.

(* ===================================================================== *)
(** * The minimum and maximum that ignore NaN *)
(* ===================================================================== *)

Lemma Qle_bool_total (a b : Q) : Qle_bool a b = false -> Qle_bool b a = true.
Proof.
  intros H. apply Qle_bool_iff. destruct (Qlt_le_dec b a) as [L|L].
  - apply Qlt_le_weak; exact L.
  - apply Qle_bool_iff in L. congruence.
Qed.

Lemma Qle_bool_trans (a b c : Q) :
  Qle_bool a b = true -> Qle_bool b c = true -> Qle_bool a c = true.
Proof.
  rewrite !Qle_bool_iff. apply Qle_trans.
Qed.

Lemma fmin_nan (a b : fval) : is_nan (fmin a b) = is_nan a && is_nan b.
Proof.
  destruct a, b; simpl; try reflexivity; destruct (Qle_bool q q0); reflexivity.
Qed.

Lemma fmax_nan (a b : fval) : is_nan (fmax a b) = is_nan a && is_nan b.
Proof.
  destruct a, b; simpl; try reflexivity; destruct (Qle_bool q q0); reflexivity.
Qed.

Lemma fmin_ge0 (a b : fval) : ge0 (fmin a b) = ge0 a && ge0 b.
Proof.
  unfold ge0. destruct a as [x| | |], b as [y| | |]; simpl; try reflexivity;
    try (destruct (Qle_bool 0 x); reflexivity);
    try (destruct (Qle_bool 0 y); reflexivity).
  destruct (Qle_bool x y) eqn:E; simpl.
  - destruct (Qle_bool 0 x) eqn:E0; simpl; [|reflexivity].
    symmetry. eapply Qle_bool_trans; eassumption.
  - apply Qle_bool_total in E.
    destruct (Qle_bool 0 y) eqn:E0; simpl.
    + rewrite (Qle_bool_trans _ _ _ E0 E). reflexivity.
    + rewrite andb_false_r. reflexivity.
Qed.

Lemma fmax_le0 (a b : fval) : le0 (fmax a b) = le0 a && le0 b.
Proof.
  unfold le0. destruct a as [x| | |], b as [y| | |]; simpl; try reflexivity;
    try (destruct (Qle_bool x 0); reflexivity);
    try (destruct (Qle_bool y 0); reflexivity).
  destruct (Qle_bool x y) eqn:E; simpl.
  - destruct (Qle_bool y 0) eqn:E0; simpl.
    + rewrite (Qle_bool_trans _ _ _ E E0). reflexivity.
    + rewrite andb_false_r. reflexivity.
  - apply Qle_bool_total in E.
    destruct (Qle_bool x 0) eqn:E0; simpl; [|reflexivity].
    symmetry. eapply Qle_bool_trans; eassumption.
Qed.

Lemma fold_fmin_nan (r : list fval) (a : fval) :
  is_nan (fold_left fmin r a) = forallb is_nan (a :: r).
Proof.
  revert a. induction r as [|b r IH]; intros a; simpl.
  - rewrite andb_true_r. reflexivity.
  - rewrite IH. simpl. rewrite fmin_nan, andb_assoc. reflexivity.
Qed.

Lemma fold_fmax_nan (r : list fval) (a : fval) :
  is_nan (fold_left fmax r a) = forallb is_nan (a :: r).
Proof.
  revert a. induction r as [|b r IH]; intros a; simpl.
  - rewrite andb_true_r. reflexivity.
  - rewrite IH. simpl. rewrite fmax_nan, andb_assoc. reflexivity.
Qed.

Lemma fold_fmin_ge0 (r : list fval) (a : fval) :
  ge0 (fold_left fmin r a) = forallb ge0 (a :: r).
Proof.
  revert a. induction r as [|b r IH]; intros a; simpl.
  - rewrite andb_true_r. reflexivity.
  - rewrite IH. simpl. rewrite fmin_ge0, andb_assoc. reflexivity.
Qed.

Lemma fold_fmax_le0 (r : list fval) (a : fval) :
  le0 (fold_left fmax r a) = forallb le0 (a :: r).
Proof.
  revert a. induction r as [|b r IH]; intros a; simpl.
  - rewrite andb_true_r. reflexivity.
  - rewrite IH. simpl. rewrite fmax_le0, andb_assoc. reflexivity.
Qed.

Lemma fleb_split_ge0 (v : fval) : fleb (Fin 0) v = negb (is_nan v) && ge0 v.
Proof. unfold ge0. destruct v; simpl; try reflexivity. Qed.

Lemma fleb_split_le0 (v : fval) : fleb v (Fin 0) = negb (is_nan v) && le0 v.
Proof. unfold le0. destruct v; simpl; try reflexivity. Qed.

Lemma filter_not_nan_nil (l : list fval) :
  forallb is_nan l = match filter not_nan l with [] => true | _ => false end.
Proof.
  induction l as [|a l IH]; simpl; [reflexivity|].
  unfold not_nan at 1. destruct (is_nan a); simpl; [exact IH | reflexivity].
Qed.

Lemma forallb_ge0_filter (l : list fval) :
  forallb ge0 l = forallb (fun v => fleb (Fin 0) v) (filter not_nan l).
Proof.
  induction l as [|a l IH]; simpl; [reflexivity|].
  unfold not_nan at 1. rewrite IH. unfold ge0 at 1.
  destruct (is_nan a) eqn:E; simpl; [reflexivity|].
  reflexivity.
Qed.

Lemma forallb_le0_filter (l : list fval) :
  forallb le0 l = forallb (fun v => fleb v (Fin 0)) (filter not_nan l).
Proof.
  induction l as [|a l IH]; simpl; [reflexivity|].
  unfold not_nan at 1. rewrite IH. unfold le0 at 1.
  destruct (is_nan a) eqn:E; simpl; [reflexivity|].
  reflexivity.
Qed.

Theorem classify_ignores_nan_only (a : fval) (l : list fval) :
  classify (a :: l) = Ok (nan_classify (a :: l)).
Proof.
  unfold classify, nanmin, nanmax, nan_classify, obind.
  rewrite fleb_split_ge0, fleb_split_le0.
  rewrite fold_fmin_nan, fold_fmax_nan, fold_fmin_ge0, fold_fmax_le0.
  rewrite forallb_ge0_filter, forallb_le0_filter, filter_not_nan_nil.
  destruct (filter not_nan (a :: l)) as [|b r]; [reflexivity|].
  cbn [negb andb].
  destruct (forallb (fun v => fleb (Fin 0) v) (b :: r)); [reflexivity|].
  destruct (forallb (fun v => fleb v (Fin 0)) (b :: r)); reflexivity.
Qed.

Lemma mixed_sign (l : list fval) :
  forallb (fun v => fleb (Fin 0) v) (filter not_nan l) = negb (existsb below_zero l).
Proof.
  induction l as [|a l IH]; [reflexivity|].
  cbn [filter existsb]. unfold not_nan at 1, below_zero at 1.
  destruct (is_nan a); cbn [negb andb orb forallb]; [exact IH|].
  rewrite IH. destruct (fleb (Fin 0) a); reflexivity.
Qed.

Lemma mixed_sign' (l : list fval) :
  forallb (fun v => fleb v (Fin 0)) (filter not_nan l) = negb (existsb above_zero l).
Proof.
  induction l as [|a l IH]; [reflexivity|].
  cbn [filter existsb]. unfold not_nan at 1, above_zero at 1.
  destruct (is_nan a); cbn [negb andb orb forallb]; [exact IH|].
  rewrite IH. destruct (fleb a (Fin 0)); reflexivity.
Qed.

(** C4, amended: on every non-empty field the heuristic returns exactly one
    statement, the one of [nan_classify]: only NaN is left out of the
    comparison, while the infinities take part in it.  The minimum
    statement is returned when some value is not NaN and none is below
    zero; the maximum statement when some value is not NaN, one is below
    zero and none above; the third statement when a value is below and a
    value above zero, or when every value is NaN. *)
Theorem explanation_leaves_out_nan_only (a : fval) (l : list fval) :
  classify (a :: l) = Ok (nan_classify (a :: l))
  /\ match nan_classify (a :: l) with
     | MinimumPoint =>
         negb (forallb is_nan (a :: l)) && negb (existsb below_zero (a :: l))
     | MaximumPoint =>
         negb (forallb is_nan (a :: l)) && existsb below_zero (a :: l)
         && negb (existsb above_zero (a :: l))
     | SaddlePoint =>
         forallb is_nan (a :: l)
         || (existsb below_zero (a :: l) && existsb above_zero (a :: l))
     end = true.
Proof.
  split; [apply classify_ignores_nan_only|].
  unfold nan_classify.
  rewrite (filter_not_nan_nil (a :: l)).
  pose proof (mixed_sign (a :: l)) as M1. pose proof (mixed_sign' (a :: l)) as M2.
  destruct (filter not_nan (a :: l)) as [|b r]; [reflexivity|].
  rewrite M1, M2.
  destruct (existsb below_zero (a :: l)), (existsb above_zero (a :: l)); reflexivity.
Qed.

(** C4 as stated fails: on the field [-1, +Inf] the code returns the third
    statement, while leaving the non-finite values out of the comparison
    gives the maximum statement.  The script meets such a field at the
    input [1/(x - 5)]: the last sample of the grid is 5, where the value
    is infinite, and the value is negative at every other sample. *)
Lemma infinity_takes_part_in_the_comparison :
  classify [Fin (-1); PInf] = Ok SaddlePoint
  /\ spec_classify [Fin (-1); PInf] = MaximumPoint
  /\ (Za <- height_field null_lib
              (interaction TwoVariables "1/(x - 5)" Visualization) ;;
      match elements Za with
      | Some l => c <- classify l ;; Ok (c, spec_classify l)
      | None => Unmodelled
      end)%outcome = Ok (SaddlePoint, MaximumPoint).
Proof. repeat split; vm_compute; reflexivity. Qed.

(* ===================================================================== *)
(** * The shape of a run *)
(* ===================================================================== *)

Lemma existsb_map {A B} (f : A -> B) (p : B -> bool) (l : list A) :
  existsb p (map f l) = existsb (fun a => p (f a)) l.
Proof. induction l as [|a l IH]; simpl; [reflexivity | rewrite IH; reflexivity]. Qed.

Lemma collect_raises {A} (os : list (outcome A)) :
  existsb raises os = true -> raises (collect os) = true.
Proof.
  induction os as [|o r IH]; simpl; [discriminate|].
  intros H. apply orb_true_iff in H. destruct H as [H|H].
  - destruct o; try discriminate. reflexivity.
  - specialize (IH H). destruct o; destruct (collect r); try discriminate; reflexivity.
Qed.

Lemma obind_raises {A B} (o : outcome A) (k : A -> outcome B) :
  raises o = true -> raises (obind o k) = true.
Proof. destruct o; simpl; congruence. Qed.

Lemma f_lamb_undefined_function (lib : NumLib) (Xa Ya : list (list fval)) (e : Expr) :
  has_undef e = true -> raises (f_lamb lib e Xa Ya) = true.
Proof.
  induction e using Expr_ind'; simpl; try discriminate; intros U.
  - apply obind_raises, collect_raises. rewrite existsb_map.
    clear -H U. induction H as [|x r Hx Hr IH]; simpl in *; [discriminate|].
    apply orb_true_iff in U. apply orb_true_iff. destruct U; [left | right]; auto.
  - apply obind_raises, collect_raises. rewrite existsb_map.
    clear -H U. induction H as [|x r Hx Hr IH]; simpl in *; [discriminate|].
    apply orb_true_iff in U. apply orb_true_iff. destruct U; [left | right]; auto.
  - apply orb_true_iff in U.
    assert (G : raises (vs <- collect [f_lamb lib e1 Xa Ya; f_lamb lib e2 Xa Ya] ;;
                        match vs with [vb; vx] => vbin (lib_pow lib) vb vx | _ => Unmodelled end)%outcome = true).
    { apply obind_raises, collect_raises. simpl. rewrite orb_false_r.
      apply orb_true_iff. destruct U; [left | right]; auto. }
    destruct e2; try exact G.
    destruct flt; [exact G|].
    apply obind_raises. destruct U as [U|U]; [auto | discriminate].
  - apply obind_raises. auto.
  - reflexivity.
Qed.

Lemma app_parse_error (lib : NumLib) (latex : Expr -> string) (inp : Input) :
  raises (sympify (func_input inp) allowed_funcs) = true ->
  app lib latex inp =
    ((header_elems inp ++ [EError parse_error_text; EMarkdown parse_help_text])%list, Stopped).
Proof.
  intros R. unfold app, run, script, bind, parse_stage, try_except.
  destruct (sympify _ _); try discriminate. reflexivity.
Qed.

Lemma app_eval_error (lib : NumLib) (latex : Expr -> string) (inp : Input) (f : Expr) :
  sympify (func_input inp) allowed_funcs = Ok f ->
  raises (f_lamb lib (f_eval inp f) X Y) = true ->
  app lib latex inp =
    ((header_elems inp ++ selector_elems inp ++ [EError eval_error_text])%list, Stopped).
Proof.
  intros P R. unfold app, run, script, bind, parse_stage, try_except, slice_stage, eval_stage.
  rewrite P. unfold selector_elems, f_eval in *.
  destruct (var_type inp); cbv [header emit bind ret topic_selector app];
    destruct (f_lamb _ _ _ _); try discriminate; reflexivity.
Qed.

Lemma app_evaluated (lib : NumLib) (latex : Expr -> string) (inp : Input) (f : Expr) (Za : pyval) :
  sympify (func_input inp) allowed_funcs = Ok f ->
  f_lamb lib (f_eval inp f) X Y = Ok Za ->
  app lib latex inp =
    run (fun _ => topic_stage latex inp (f_eval inp f) Za
                    (header_elems inp ++ selector_elems inp)%list).
Proof.
  intros P R. unfold app, run, script, bind, parse_stage, try_except, slice_stage, eval_stage.
  rewrite P. unfold selector_elems.
  destruct (var_type inp) eqn:V; cbv [header emit bind ret topic_selector app];
    rewrite R; reflexivity.
Qed.

(* ===================================================================== *)
(** * The shape of the height field *)
(* ===================================================================== *)

Section GridShape.

Variable lib : NumLib.
Variables Xa Ya : list (list fval).
Hypothesis XY : same_shape Ya Xa = true.

Local Abbreviation on_grid := (aligned_value Xa).

Lemma same_shape_refl (m : list (list fval)) : same_shape m m = true.
Proof.
  unfold same_shape. rewrite Nat.eqb_refl. simpl.
  induction m as [|r m IH]; simpl; [reflexivity|].
  rewrite Nat.eqb_refl. exact IH.
Qed.

Lemma same_shape_spec (m n : list (list fval)) :
  same_shape m n = true <-> Forall2 (fun r s => List.length r = List.length s) m n.
Proof.
  unfold same_shape. split.
  - intros H. apply andb_true_iff in H. destruct H as [L F].
    apply Nat.eqb_eq in L. revert n L F.
    induction m as [|r m IH]; intros [|s n] L F; try discriminate; constructor.
    + simpl in F. apply andb_true_iff in F. destruct F as [F _].
      apply Nat.eqb_eq in F. exact F.
    + simpl in F. apply andb_true_iff in F. destruct F as [_ F].
      apply IH; [simpl in L; lia | exact F].
  - induction 1 as [|r s m n E _ IH]; [reflexivity|].
    apply andb_true_iff in IH. destruct IH as [L F]. apply Nat.eqb_eq in L.
    simpl. rewrite L, Nat.eqb_refl. simpl.
    rewrite E, Nat.eqb_refl. exact F.
Qed.

Lemma same_shape_trans (m n p : list (list fval)) :
  same_shape m n = true -> same_shape n p = true -> same_shape m p = true.
Proof.
  rewrite !same_shape_spec. intros H. revert p.
  induction H as [|r s m n E _ IH]; intros p Hp; inversion Hp; subst; constructor.
  - congruence.
  - apply IH. assumption.
Qed.

Lemma same_shape_map2d (f : fval -> fval) (m : list (list fval)) :
  same_shape (map2d f m) m = true.
Proof.
  apply same_shape_spec. unfold map2d.
  induction m as [|r m IH]; simpl; constructor; [apply length_map | exact IH].
Qed.

Lemma length_zip_with {A B C} (f : A -> B -> C) (a : list A) (b : list B) :
  List.length a = List.length b -> List.length (zip_with f a b) = List.length a.
Proof.
  revert b. induction a as [|x a IH]; intros [|y b] E; simpl in *; try lia.
  rewrite IH; lia.
Qed.

Lemma same_shape_zip (op : fval -> fval -> fval) (m n : list (list fval)) :
  same_shape m n = true -> same_shape (zip_with (zip_with op) m n) m = true.
Proof.
  rewrite !same_shape_spec.
  induction 1 as [|r s m n E _ IH]; simpl; constructor; [|exact IH].
  apply length_zip_with, E.
Qed.

Lemma on_grid_vbin op a b r :
  on_grid a -> on_grid b -> vbin op a b = Ok r -> on_grid r.
Proof.
  intros Ha Hb E. destruct a, b; simpl in *; inversion E; subst; simpl; try exact I.
  - eapply same_shape_trans; [apply same_shape_map2d | exact Hb].
  - eapply same_shape_trans; [apply same_shape_map2d | exact Ha].
  - destruct (same_shape a a0) eqn:S; [|discriminate].
    inversion E; subst. simpl.
    eapply same_shape_trans; [apply same_shape_zip, S | exact Ha].
Qed.

Lemma on_grid_vfun f a r : on_grid a -> vfun f a = Ok r -> on_grid r.
Proof.
  intros Ha E. destruct a; simpl in *; inversion E; subst; simpl; try exact I.
  eapply same_shape_trans; [apply same_shape_map2d | exact Ha].
Qed.

Lemma on_grid_vpow_int a n r : on_grid a -> vpow_int a n = Ok r -> on_grid r.
Proof.
  intros Ha E. destruct a as [v|m| |]; simpl in *.
  - destruct v; try (inversion E; subst; exact I).
    destruct (_ && _); inversion E; subst; exact I.
  - inversion E; subst. simpl.
    eapply same_shape_trans; [apply same_shape_map2d | exact Ha].
  - inversion E; subst; exact I.
  - inversion E; subst; exact I.
Qed.

Lemma collect_Ok {A} (os : list (outcome A)) (vs : list A) :
  collect os = Ok vs -> Forall2 (fun o v => o = Ok v) os vs.
Proof.
  revert vs. induction os as [|o r IH]; intros vs E; simpl in E.
  - inversion E; subst. constructor.
  - destruct o as [a| |]; destruct (collect r) as [l| |]; try discriminate.
    inversion E; subst. constructor; [reflexivity | apply IH; reflexivity].
Qed.

Lemma on_grid_fold op (vs : list pyval) : forall (acc : outcome pyval) r,
  (forall a, acc = Ok a -> on_grid a) -> Forall on_grid vs ->
  fold_left (fun acc w => a <- acc ;; vbin op a w)%outcome vs acc = Ok r ->
  on_grid r.
Proof.
  induction vs as [|v vs IH]; intros acc r Hacc Hvs E; simpl in E.
  - apply Hacc, E.
  - inversion Hvs; subst. eapply IH; [| assumption | exact E].
    intros a Ea. destruct acc as [b| |]; simpl in Ea; try discriminate.
    eapply on_grid_vbin; [apply Hacc; reflexivity | eassumption | exact Ea].
Qed.

Lemma on_grid_vfold op unit vs r :
  Forall on_grid vs -> vfold op unit vs = Ok r -> on_grid r.
Proof.
  intros H E. destruct vs as [|v vs]; simpl in E.
  - inversion E; subst. exact I.
  - inversion H; subst. eapply on_grid_fold; [| eassumption | exact E].
    intros a Ea. inversion Ea; subst. assumption.
Qed.

Lemma on_grid_collect (l : list Expr) (vs : list pyval) :
  Forall (fun e => forall v, f_lamb lib e Xa Ya = Ok v -> on_grid v) l ->
  collect (map (fun a => f_lamb lib a Xa Ya) l) = Ok vs ->
  Forall on_grid vs.
Proof.
  intros H E. apply collect_Ok in E. revert vs E.
  induction H as [|x r Hx Hr IH]; intros vs E; inversion E; subst; constructor.
  - apply Hx. assumption.
  - apply IH. assumption.
Qed.

Lemma f_lamb_on_grid (e : Expr) :
  forall v, f_lamb lib e Xa Ya = Ok v -> on_grid v.
Proof.
  induction e using Expr_ind'; intros v E; simpl in E.
  - inversion E; subst. exact I.
  - destruct (String.eqb s "x"); [inversion E; subst; apply same_shape_refl|].
    destruct (String.eqb s "y"); inversion E; subst; [exact XY | exact I].
  - inversion E; subst. exact I.
  - destruct (collect _) as [vs| |] eqn:C; try discriminate. simpl in E.
    eapply on_grid_vfold; [eapply on_grid_collect; eassumption | exact E].
  - destruct (collect _) as [vs| |] eqn:C; try discriminate. simpl in E.
    eapply on_grid_vfold; [eapply on_grid_collect; eassumption | exact E].
  - assert (G : forall w,
               (vs <- collect [f_lamb lib e1 Xa Ya; f_lamb lib e2 Xa Ya] ;;
                match vs with
                | [vb; vx] => vbin (lib_pow lib) vb vx
                | _ => Unmodelled
                end)%outcome = Ok w -> on_grid w).
    { intros w Ew. destruct (collect _) as [vs| |] eqn:C; try discriminate.
      simpl in Ew. apply collect_Ok in C.
      inversion C as [|? ? ? ? C1 C']; subst. inversion C' as [|? ? ? ? C2 C'']; subst.
      inversion C''; subst.
      eapply on_grid_vbin; [apply IHe1, C1 | apply IHe2, C2 | exact Ew]. }
    destruct e2; try (apply G, E).
    destruct flt; [apply G, E|].
    destruct (f_lamb lib e1 Xa Ya) as [vb| |] eqn:B; try discriminate.
    simpl in E. specialize (IHe1 _ eq_refl).
    destruct (Qeq_bool q (1 # 2)); [eapply on_grid_vfun; eassumption|].
    destruct (Qeq_bool q (-1 # 2)).
    + destruct (vfun (np_sqrt lib) vb) as [r| |] eqn:S; try discriminate.
      simpl in E. eapply on_grid_vpow_int; [eapply on_grid_vfun; eassumption | exact E].
    + destruct (q_is_int q); [eapply on_grid_vpow_int; eassumption|].
      eapply on_grid_vbin with (b := PNum (Fin q)); [exact IHe1 | exact I | exact E].
  - destruct (f_lamb lib e Xa Ya) as [va| |] eqn:A; try discriminate.
    simpl in E. eapply on_grid_vfun; [apply IHe; reflexivity | exact E].
  - discriminate.
  - discriminate.
Qed.

End GridShape.

(** Whenever the generated function returns an array, the array has the
    shape of the grid. *)
Theorem array_height_field_is_aligned (lib : NumLib) (e : Expr) (a : list (list fval)) :
  f_lamb lib e X Y = Ok (PArr a) -> same_shape a X = true.
Proof.
  intros E. apply (@f_lamb_on_grid lib X Y (eq_refl : same_shape Y X = true) e _ E).
Qed.

(* ===================================================================== *)
(** * The claims on parsing, evaluation and errors *)
(* ===================================================================== *)

Lemma sample_never_zero (k : nat) : Qeq_bool (sample k) 0 = false.
Proof.
  destruct (Qeq_bool (sample k) 0) eqn:E; [|reflexivity].
  apply Qeq_bool_eq in E. unfold sample in E.
  unfold Qeq, Qplus, Qmult, inject_Z in E. cbn [Qnum Qden] in E. lia.
Qed.

(** C2, amended: in exact arithmetic no sample [-5 + 10k/59] is zero (the
    equation asks for [2k = 59]); the 60 samples of the grid are these
    numbers, none of them zero; and the height field of [1/x] in
    two-variable mode is a 60 x 60 array whose values are all finite.
    There is no column with [x = 0]. *)
Theorem one_over_x_is_finite_on_the_grid (lib : NumLib) (k : nat) :
  Qeq_bool (sample k) 0 = false
  /\ forallb (fun j => Qeq_bool (nth j vals 0) (sample j)) (seq 0 60) = true
  /\ existsb (fun q => Qeq_bool q 0) vals = false
  /\ exists a,
       height_field lib (interaction TwoVariables "1/x" Visualization) = Ok (PArr a)
       /\ shape a = (60, 60)%nat
       /\ all_finite a = true.
Proof.
  split; [apply sample_never_zero|].
  split; [vm_compute; reflexivity|].
  split; [vm_compute; reflexivity|].
  eexists. split; [vm_compute; reflexivity|].
  split; vm_compute; reflexivity.
Qed.

(** C2 as stated fails: the height field of [1/x] holds no infinity and no
    NaN, and the grid has no sample equal to zero. *)
Lemma one_over_x_has_no_nonfinite_value :
  match height_field null_lib (interaction TwoVariables "1/x" Visualization) with
  | Ok (PArr a) =>
      existsb (existsb (fun v => negb (is_finite v))) a
      || existsb (fun q => Qeq_bool q 0) vals
  | _ => true
  end = false.
Proof. vm_compute. reflexivity. Qed.

(** C1, at the failing input: the text [foo(x)] names a function outside
    the allowed vocabulary, and [sympify] does not raise on it.  It returns
    the application of an undefined function, so the handler of the parse
    stage never runs, no ParseError message is shown, and the run goes on
    to the evaluation stage, where it ends with the EvaluationError
    message. *)
Theorem undefined_function_is_not_rejected
        (lib : NumLib) (latex : Expr -> string) (v : VarType) (t : Topic) :
  sympify "foo(x)" allowed_funcs = Ok (UndefApp "foo" [Sym "x"])
  /\ shows_error parse_error_text
       (fst (app lib latex (interaction v "foo(x)" t))) = false
  /\ app lib latex (interaction v "foo(x)" t) =
       ((header_elems (interaction v "foo(x)" t)
          ++ selector_elems (interaction v "foo(x)" t)
          ++ [EError eval_error_text])%list, Stopped).
Proof.
  split; [vm_compute; reflexivity|].
  assert (A : app lib latex (interaction v "foo(x)" t) =
       ((header_elems (interaction v "foo(x)" t)
          ++ selector_elems (interaction v "foo(x)" t)
          ++ [EError eval_error_text])%list, Stopped)).
  { apply app_eval_error with (f := UndefApp "foo" [Sym "x"]).
    - vm_compute. reflexivity.
    - destruct v; reflexivity. }
  split; [|exact A]. rewrite A. destruct v; vm_compute; reflexivity.
Qed.

(** C3, at the failing input: for the constant [5] in two-variable mode the
    generated function returns the scalar 5, not an array of the shape of
    the grid (60 x 60), whereas an expression in which [x] occurs, such as
    [x + 5], gives an array of that shape. *)
Theorem constant_height_field_is_a_scalar (lib : NumLib) :
  height_field lib (interaction TwoVariables "5" Visualization) = Ok (PNum (Fin 5))
  /\ shape X = (60, 60)%nat
  /\ exists a,
       height_field lib (interaction TwoVariables "x + 5" Visualization) = Ok (PArr a)
       /\ shape a = shape X.
Proof.
  split; [vm_compute; reflexivity|].
  split; [vm_compute; reflexivity|].
  eexists. split; vm_compute; reflexivity.
Qed.

Lemma shows_error_last (msg : string) (pre post : list Elem) :
  shows_error msg (pre ++ EError msg :: post) = true.
Proof.
  unfold shows_error. rewrite existsb_app. simpl. rewrite String.eqb_refl.
  rewrite orb_true_r. reflexivity.
Qed.

Lemma header_no_topic_output (inp : Input) :
  existsb is_topic_output (header_elems inp) = false.
Proof. reflexivity. Qed.

Lemma selector_no_topic_output (inp : Input) :
  existsb is_topic_output (selector_elems inp) = false.
Proof. unfold selector_elems. destruct (var_type inp); reflexivity. Qed.

Lemma chart_is_topic_output (page : list Elem) :
  existsb is_topic_output page = false -> existsb is_chart page = false.
Proof.
  induction page as [|el r IH]; simpl; [reflexivity|].
  intros H. apply orb_false_iff in H. destruct H as [H1 H2].
  rewrite (IH H2). destruct el; try discriminate; reflexivity.
Qed.



(* ===================================================================== *)
(** * The claims on slicing, differentiation and determinism *)
(* ===================================================================== *)



(** C7: for [x**2 + y**2] the partial derivatives are [2*x] and [2*y], and
    the Partial Derivatives topic shows their formulas; for
    [sin(x) + cos(y)] they are [cos(x)] and [-sin(y)]. *)
Theorem differentiator_examples (lib : NumLib) (latex : Expr -> string) :
  (f <- sympify "x**2 + y**2" allowed_funcs ;; Ok (diff f "x", diff f "y"))%outcome
    = Ok (Mul [Num 2 false; Sym "x"], Mul [Num 2 false; Sym "y"])
  /\ (f <- sympify "sin(x) + cos(y)" allowed_funcs ;; Ok (diff f "x", diff f "y"))%outcome
    = Ok (Fn Fcos (Sym "x"), Mul [Num (-1) false; Fn Fsin (Sym "y")])
  /\ In (ELatex ("\frac{\partial f}{\partial x} = " ++ latex (Mul [Num 2 false; Sym "x"])))
        (fst (app lib latex (interaction TwoVariables "x**2 + y**2" PartialDerivatives)))
  /\ In (ELatex ("\frac{\partial f}{\partial y} = " ++ latex (Mul [Num 2 false; Sym "y"])))
        (fst (app lib latex (interaction TwoVariables "x**2 + y**2" PartialDerivatives))).
Proof.
  split; [vm_compute; reflexivity|].
  split; [vm_compute; reflexivity|].
  split; vm_compute; repeat (first [left; reflexivity | right]).
Qed.






(** A symbol that is not an argument of the generated function is bound to
    itself: the value of [w + 1] is a symbolic expression, and nothing is
    raised at the evaluation stage. *)
Lemma extra_variable_raises_nothing (lib : NumLib) :
  sympify "w + 1" allowed_funcs = Ok (Add [Num 1 false; Sym "w"])
  /\ height_field lib (interaction TwoVariables "w + 1" Visualization) = Ok PSym.
Proof. split; vm_compute; reflexivity. Qed.

(** C10 as stated fails: for [x**2 + y**2 + z**2] the partial derivatives
    are [2*x] and [2*y] at the slice value 0 and at the slice value 1; they
    do not change when the slice value changes. *)
Lemma partials_unchanged_by_the_slice :
  sympify "x**2 + y**2 + z**2" allowed_funcs = Ok sum_of_squares
  /\ Qeq_bool 0 1 = false
  /\ partials (with_slice (interaction ThreeVariables "x**2 + y**2 + z**2" PartialDerivatives) 0)
              sum_of_squares
     = (Mul [Num 2 false; Sym "x"], Mul [Num 2 false; Sym "y"])
  /\ partials (with_slice (interaction ThreeVariables "x**2 + y**2 + z**2" PartialDerivatives) 1)
              sum_of_squares
     = (Mul [Num 2 false; Sym "x"], Mul [Num 2 false; Sym "y"]).
Proof. vm_compute. repeat split. Qed.

Lemma topic_stage_shows_partials (latex : Expr -> string) (inp : Input) (fe : Expr)
      (Za : pyval) (out : list Elem) :
  incl (shown_partials latex (topic inp) (diff fe "x") (diff fe "y"))
       (fst (run (fun _ => topic_stage latex inp fe Za out))).
Proof.
  unfold run, topic_stage, shown_partials, show_surface, st_plotly_chart, call_lib.
  destruct (topic inp); cbv [bind emit ret leave_model plot_surface fig_z];
    intros el Hel; cbn [In] in Hel; try contradiction;
    destruct Za; cbn [fst]; rewrite !in_app_iff; cbn [In]; tauto.
Qed.

(** C10, amended: in three-variable mode the partial derivatives are those
    of the expression in which [z] is already replaced by the slice value;
    [z] does not occur in them; the Partial Derivatives and Gradient topics
    show their formulas; and they depend on the slice value for some
    functions: for [x*z] the derivative in [x] differs at the slice values
    1 and 2. *)
Theorem partials_are_those_of_the_slice
        (lib : NumLib) (latex : Expr -> string) (inp : Input) (f : Expr) (Za : pyval) :
  var_type inp = ThreeVariables ->
  sympify (func_input inp) allowed_funcs = Ok f ->
  f_lamb lib (f_eval inp f) X Y = Ok Za ->
  partials inp f = (diff (subs "z" (slice_value inp) f) "x",
                    diff (subs "z" (slice_value inp) f) "y")
  /\ mentions "z" (fst (partials inp f)) = false
  /\ mentions "z" (snd (partials inp f)) = false
  /\ incl (shown_partials latex (topic inp) (fst (partials inp f)) (snd (partials inp f)))
          (fst (app lib latex inp))
  /\ expr_eqb
       (fst (partials (with_slice (interaction ThreeVariables "x*z" Gradient) 1)
                      (Mul [Sym "x"; Sym "z"])))
       (fst (partials (with_slice (interaction ThreeVariables "x*z" Gradient) 2)
                      (Mul [Sym "x"; Sym "z"]))) = false.
Proof.
  intros V P R.
  assert (E : partials inp f = (diff (subs "z" (slice_value inp) f) "x",
                                diff (subs "z" (slice_value inp) f) "y")).
  { unfold partials, f_eval. rewrite V. reflexivity. }
  split; [exact E|]. rewrite E. cbn [fst snd].
  split; [apply absent_diff, absent_subs; reflexivity|].
  split; [apply absent_diff, absent_subs; reflexivity|].
  split; [|vm_compute; reflexivity].
  rewrite (app_evaluated lib latex inp P R).
  replace (subs "z" (slice_value inp) f) with (f_eval inp f)
    by (unfold f_eval; rewrite V; reflexivity).
  apply topic_stage_shows_partials.
Qed.

(** A run on [x*z] with the slider at zero. *)
Lemma partials_are_those_of_the_slice_witness :
  var_type (with_slice (interaction ThreeVariables "x*z" Gradient) 0) = ThreeVariables
  /\ sympify (func_input (with_slice (interaction ThreeVariables "x*z" Gradient) 0))
             allowed_funcs = Ok (Mul [Sym "x"; Sym "z"])
  /\ f_lamb null_lib
       (f_eval (with_slice (interaction ThreeVariables "x*z" Gradient) 0)
               (Mul [Sym "x"; Sym "z"])) X Y = Ok (PNum (Fin 0))
  /\ mentions "z"
       (fst (partials (with_slice (interaction ThreeVariables "x*z" Gradient) 0)
                      (Mul [Sym "x"; Sym "z"]))) = false.
Proof.
  split; [reflexivity|]. split; [vm_compute; reflexivity|].
  split; [vm_compute; reflexivity|].
  destruct (@partials_are_those_of_the_slice null_lib null_latex
              (with_slice (interaction ThreeVariables "x*z" Gradient) 0)
              (Mul [Sym "x"; Sym "z"]) (PNum (Fin 0))) as (_ & A & _);
    [reflexivity | vm_compute; reflexivity | vm_compute; reflexivity | exact A].
Defined.

(* ===================================================================== *)
(** * The grid *)
(* ===================================================================== *)

Lemma nth_map_seq {A} (f : nat -> A) (n k : nat) (d : A) :
  (k < n)%nat -> nth k (map f (seq 0 n)) d = f k.
Proof.
  intros H. rewrite (nth_indep _ d (f 0%nat)) by (rewrite length_map, length_seq; exact H).
  rewrite map_nth, seq_nth by exact H. reflexivity.
Qed.

Lemma linspace_nth (start stop : Q) (num k : nat) :
  (2 <= num)%nat -> (k < num)%nat ->
  nth k (linspace start stop num) 0
  == start + inject_Z (Z.of_nat k) * ((stop - start) / inject_Z (Z.of_nat (num - 1))).
Proof.
  intros N K. unfold linspace. rewrite nth_map_seq by exact K.
  destruct (Nat.eqb (S k) num) eqn:E; rewrite Qred_correct; [|reflexivity].
  apply Nat.eqb_eq in E. replace (num - 1)%nat with k by lia.
  assert (H : ~ inject_Z (Z.of_nat k) == 0).
  { unfold Qeq, inject_Z. cbn [Qnum Qden]. lia. }
  field. exact H.
Qed.



Lemma nth_map_in {A B} (f : A -> B) (l : list A) (k : nat) (d : A) (d' : B) :
  (k < List.length l)%nat -> nth k (map f l) d' = f (nth k l d).
Proof.
  intros H. rewrite (nth_indep _ d' (f d)) by (rewrite length_map; exact H).
  apply map_nth.
Qed.

Lemma same_shape_meshgrid (xs ys : list Q) :
  same_shape (snd (meshgrid xs ys)) (fst (meshgrid xs ys)) = true.
Proof.
  apply same_shape_spec. unfold meshgrid. cbn [fst snd].
  induction ys as [|y ys IH]; simpl; constructor; [|exact IH].
  rewrite !length_map. reflexivity.
Qed.

Lemma entry_meshgrid (xs ys : list Q) (i j : nat) :
  (i < List.length ys)%nat -> (j < List.length xs)%nat ->
  entry i j (fst (meshgrid xs ys)) = Fin (nth j xs 0)
  /\ entry i j (snd (meshgrid xs ys)) = Fin (nth i ys 0).
Proof.
  intros I J. unfold meshgrid, entry. cbn [fst snd]. split.
  - rewrite (@nth_map_in _ _ (fun _ => map Fin xs) ys i 0 []) by exact I.
    apply nth_map_in. exact J.
  - rewrite (@nth_map_in _ _ (fun y => map (fun _ => Fin y) xs) ys i 0 []) by exact I.
    rewrite (@nth_map_in _ _ (fun _ => Fin (nth i ys 0)) xs j 0 NaN) by exact J.
    reflexivity.
Qed.

Lemma in_bounds_meshgrid (xs ys : list Q) (i j : nat) :
  (i < List.length ys)%nat -> (j < List.length xs)%nat ->
  in_bounds i j (fst (meshgrid xs ys)).
Proof.
  intros I J. unfold in_bounds, meshgrid. cbn [fst]. rewrite length_map.
  split; [exact I|].
  rewrite (@nth_map_in _ _ (fun _ => map Fin xs) ys i 0 []) by exact I.
  rewrite length_map. exact J.
Qed.



(* ===================================================================== *)
(** * The evaluation, point by point *)
(* ===================================================================== *)

Lemma same_shape_in_bounds (m n : list (list fval)) (i j : nat) :
  same_shape m n = true -> in_bounds i j n -> in_bounds i j m.
Proof.
  rewrite same_shape_spec. intros H. revert i.
  induction H as [|r s m n E _ IH]; intros i [I J]; simpl in *; [lia|].
  destruct i as [|i].
  - split; [simpl; lia | simpl; lia].
  - destruct (IH i) as [I' J']; [split; [lia | exact J]|].
    split; simpl; [lia | exact J'].
Qed.

Lemma same_shape_sym (m n : list (list fval)) :
  same_shape m n = true -> same_shape n m = true.
Proof.
  rewrite !same_shape_spec. induction 1; constructor; auto.
Qed.

Lemma entry_map2d (f : fval -> fval) (m : list (list fval)) (i j : nat) :
  in_bounds i j m -> entry i j (map2d f m) = f (entry i j m).
Proof.
  intros [I J]. unfold entry, map2d.
  rewrite (@nth_map_in _ _ (map f) m i [] []) by exact I.
  apply nth_map_in. exact J.
Qed.

Lemma nth_zip_with {A B C} (f : A -> B -> C) (a : list A) (b : list B)
      (k : nat) (da : A) (db : B) (d : C) :
  (k < List.length a)%nat -> (k < List.length b)%nat ->
  nth k (zip_with f a b) d = f (nth k a da) (nth k b db).
Proof.
  revert b k. induction a as [|x a IH]; intros [|y b] k Ha Hb; simpl in *; try lia.
  destruct k as [|k]; [reflexivity|]. apply IH; lia.
Qed.

Lemma entry_zip_with (op : fval -> fval -> fval) (m n : list (list fval)) (i j : nat) :
  in_bounds i j m -> in_bounds i j n ->
  entry i j (zip_with (zip_with op) m n) = op (entry i j m) (entry i j n).
Proof.
  intros [I J] [I' J']. unfold entry.
  rewrite (@nth_zip_with _ _ _ (zip_with op) m n i [] [] []) by assumption.
  apply nth_zip_with; assumption.
Qed.

Lemma fold_vbin_not_Ok (op : fval -> fval -> fval) (vs : list pyval)
      (acc : outcome pyval) :
  (forall a, acc <> Ok a) ->
  fold_left (fun acc w => a <- acc ;; vbin op a w) vs acc = acc.
Proof.
  revert acc. induction vs as [|v vs IH]; intros acc H; simpl; [reflexivity|].
  destruct acc as [a| |]; [exfalso; apply (H a); reflexivity | |];
    simpl; apply IH; discriminate.
Qed.

Lemma collect_of_Ok {A} (os : list (outcome A)) (vs : list A) :
  Forall2 (fun o v => o = Ok v) os vs -> collect os = Ok vs.
Proof.
  induction 1 as [|o v os vs E _ IH]; [reflexivity|].
  simpl. rewrite E, IH. reflexivity.
Qed.

Section Pointwise.

Variable lib : NumLib.
Variables Xa Ya : list (list fval).
Hypothesis XY : same_shape Ya Xa = true.
Variables i j : nat.
Hypothesis B : in_bounds i j Xa.

Local Abbreviation on_grid := (aligned_value Xa).
Local Abbreviation here := (at_point i j).

Lemma aligned_in_bounds (m : list (list fval)) :
  same_shape m Xa = true -> in_bounds i j m.
Proof. intros S. apply (@same_shape_in_bounds m Xa i j S B). Qed.

Lemma vbin_here op a b r :
  on_grid a -> on_grid b -> vbin op a b = Ok r ->
  vbin op (here a) (here b) = Ok (here r).
Proof.
  intros Ha Hb E.
  destruct a as [x|m| |], b as [y|n| |]; simpl in *;
    try (inversion E; subst; reflexivity).
  - inversion E; subst. cbn [at_point map2d map].
    rewrite (@entry_map2d (op x) n i j (@aligned_in_bounds n Hb)). reflexivity.
  - inversion E; subst. cbn [at_point map2d map].
    rewrite (@entry_map2d (fun v => op v y) m i j (@aligned_in_bounds m Ha)). reflexivity.
  - destruct (same_shape m n); [|discriminate]. inversion E; subst.
    cbn [at_point same_shape List.length Nat.eqb combine forallb fst snd andb
         zip_with].
    rewrite (@entry_zip_with op m n i j (@aligned_in_bounds m Ha) (@aligned_in_bounds n Hb)).
    reflexivity.
Qed.

Lemma vfun_here f a r :
  on_grid a -> vfun f a = Ok r -> vfun f (here a) = Ok (here r).
Proof.
  intros Ha E. destruct a as [x|m| |]; simpl in *; inversion E; subst; try reflexivity.
  cbn [at_point map2d map].
  rewrite (@entry_map2d f m i j (@aligned_in_bounds m Ha)). reflexivity.
Qed.

Lemma vpow_int_here a n r :
  on_grid a -> vpow_int a n = Ok r -> vpow_int (here a) n = Ok (here r).
Proof.
  intros Ha E. destruct a as [x|m| |]; simpl in *.
  - destruct x; try (inversion E; subst; reflexivity).
    destruct (_ && _); inversion E; subst; reflexivity.
  - inversion E; subst. cbn [at_point map2d map].
    rewrite (@entry_map2d (fun v => fpow_int v n) m i j (@aligned_in_bounds m Ha)).
    reflexivity.
  - inversion E; subst; reflexivity.
  - inversion E; subst; reflexivity.
Qed.

Lemma fold_here op (vs : list pyval) : forall a r,
  on_grid a -> Forall on_grid vs ->
  fold_left (fun acc w => a <- acc ;; vbin op a w) vs (Ok a) = Ok r ->
  fold_left (fun acc w => a <- acc ;; vbin op a w) (map here vs) (Ok (here a))
  = Ok (here r).
Proof.
  induction vs as [|v vs IH]; intros a r Ha Hvs E; simpl in *.
  - inversion E; subst. reflexivity.
  - inversion Hvs as [|? ? Hv Hr]; subst.
    destruct (vbin op a v) as [a1| |] eqn:V.
    + rewrite (@vbin_here op a v a1 Ha Hv V).
      apply IH; [eapply on_grid_vbin; [exact Ha | exact Hv | exact V] | exact Hr | exact E].
    + rewrite fold_vbin_not_Ok in E by discriminate. discriminate.
    + rewrite fold_vbin_not_Ok in E by discriminate. discriminate.
Qed.

Lemma vfold_here op unit vs r :
  Forall on_grid vs -> vfold op unit vs = Ok r ->
  vfold op unit (map here vs) = Ok (here r).
Proof.
  intros H E. destruct vs as [|v vs]; simpl in *.
  - inversion E; subst. reflexivity.
  - inversion H; subst. apply fold_here; assumption.
Qed.

Lemma collect_here (l : list Expr) (vs : list pyval) :
  Forall (fun e => forall v, f_lamb lib e Xa Ya = Ok v ->
            f_lamb lib e (point_grid i j Xa) (point_grid i j Ya) = Ok (here v)) l ->
  collect (map (fun a => f_lamb lib a Xa Ya) l) = Ok vs ->
  collect (map (fun a => f_lamb lib a (point_grid i j Xa) (point_grid i j Ya)) l)
  = Ok (map here vs).
Proof.
  intros H E. apply collect_Ok in E. apply collect_of_Ok. revert vs E.
  induction H as [|x r Hx Hr IH]; intros vs E; inversion E; subst; simpl;
    constructor; auto.
Qed.

Lemma collect_on_grid (l : list Expr) (vs : list pyval) :
  collect (map (fun a => f_lamb lib a Xa Ya) l) = Ok vs -> Forall on_grid vs.
Proof.
  intros E. eapply on_grid_collect; [|exact E].
  apply Forall_forall. intros e _ v Ev. eapply f_lamb_on_grid; [exact XY | exact Ev].
Qed.

Lemma f_lamb_here (e : Expr) :
  forall v, f_lamb lib e Xa Ya = Ok v ->
  f_lamb lib e (point_grid i j Xa) (point_grid i j Ya) = Ok (here v).
Proof.
  induction e using Expr_ind'; intros v E; simpl in E |- *.
  - inversion E; subst. reflexivity.
  - destruct (String.eqb s "x"); [inversion E; subst; reflexivity|].
    destruct (String.eqb s "y"); inversion E; subst; reflexivity.
  - inversion E; subst. reflexivity.
  - destruct (collect (map _ l)) as [vs| |] eqn:C; try discriminate. simpl in E.
    rewrite (@collect_here l vs H C). simpl.
    apply vfold_here; [apply (@collect_on_grid l vs C) | exact E].
  - destruct (collect (map _ l)) as [vs| |] eqn:C; try discriminate. simpl in E.
    rewrite (@collect_here l vs H C). simpl.
    apply vfold_here; [apply (@collect_on_grid l vs C) | exact E].
  - assert (G : forall w,
               (vs <- collect [f_lamb lib e1 Xa Ya; f_lamb lib e2 Xa Ya] ;;
                match vs with
                | [vb; vx] => vbin (lib_pow lib) vb vx
                | _ => Unmodelled
                end) = Ok w ->
               (vs <- collect [f_lamb lib e1 (point_grid i j Xa) (point_grid i j Ya);
                               f_lamb lib e2 (point_grid i j Xa) (point_grid i j Ya)] ;;
                match vs with
                | [vb; vx] => vbin (lib_pow lib) vb vx
                | _ => Unmodelled
                end) = Ok (here w)).
    { intros w Ew. destruct (collect [_; _]) as [vs| |] eqn:C; try discriminate.
      simpl in Ew. apply collect_Ok in C.
      inversion C as [|? vb ? ? C1 C']; subst.
      inversion C' as [|? vx ? ? C2 C'']; subst.
      inversion C''; subst.
      rewrite (@collect_of_Ok _ _ [here vb; here vx])
        by (repeat constructor; [apply IHe1, C1 | apply IHe2, C2]).
      simpl. apply vbin_here;
        [eapply f_lamb_on_grid; [exact XY | exact C1]
        | eapply f_lamb_on_grid; [exact XY | exact C2] | exact Ew]. }
    destruct e2; try (apply G, E).
    destruct flt; [apply G, E|].
    destruct (f_lamb lib e1 Xa Ya) as [vb| |] eqn:Eb; try discriminate.
    simpl in E. rewrite (IHe1 _ eq_refl). simpl.
    assert (Hb : on_grid vb) by (eapply f_lamb_on_grid; [exact XY | exact Eb]).
    destruct (Qeq_bool q (1 # 2)); [apply vfun_here; assumption|].
    destruct (Qeq_bool q (-1 # 2)).
    + destruct (vfun (np_sqrt lib) vb) as [r| |] eqn:S; try discriminate.
      simpl in E. rewrite (@vfun_here (np_sqrt lib) vb r Hb S). simpl.
      apply vpow_int_here; [eapply on_grid_vfun; [exact Hb | exact S] | exact E].
    + destruct (q_is_int q); [apply vpow_int_here; assumption|].
      apply (@vbin_here (lib_pow lib) vb (PNum (Fin q)) v Hb I E).
  - destruct (f_lamb lib e Xa Ya) as [va| |] eqn:A; try discriminate.
    simpl in E. rewrite (IHe _ eq_refl). simpl.
    apply vfun_here; [eapply f_lamb_on_grid; [exact XY | exact A] | exact E].
  - discriminate.
  - discriminate.
Qed.

End Pointwise.



(* ===================================================================== *)
(** * Which expressions give an array, and which raise *)
(* ===================================================================== *)

Lemma no_array_vbin op a b :
  no_array a = true -> no_array b = true -> gives_no_array (vbin op a b).
Proof. destruct a, b; simpl; try discriminate; reflexivity. Qed.

Lemma no_array_vfun f a : no_array a = true -> gives_no_array (vfun f a).
Proof. destruct a; simpl; try discriminate; auto. Qed.

Lemma no_array_vpow_int a n : no_array a = true -> gives_no_array (vpow_int a n).
Proof.
  destruct a as [x|m| |]; simpl; try discriminate; auto.
  destruct x; simpl; auto. destruct (_ && _); simpl; auto.
Qed.

Lemma no_array_fold op (vs : list pyval) : forall acc,
  gives_no_array acc -> Forall (fun v => no_array v = true) vs ->
  gives_no_array (fold_left (fun acc w => a <- acc ;; vbin op a w) vs acc).
Proof.
  induction vs as [|v vs IH]; intros acc Ha Hvs; simpl; [exact Ha|].
  inversion Hvs; subst. apply IH; [|assumption].
  destruct acc as [a| |]; simpl; auto. apply no_array_vbin; assumption.
Qed.

Lemma no_array_vfold op unit vs :
  Forall (fun v => no_array v = true) vs -> gives_no_array (vfold op unit vs).
Proof.
  intros H. destruct vs as [|v vs]; simpl; [reflexivity|].
  inversion H; subst. apply no_array_fold; assumption.
Qed.

Lemma absent_in_list (s : string) (l : list Expr) :
  existsb (mentions s) l = false -> Forall (fun a => mentions s a = false) l.
Proof.
  induction l as [|a l IH]; simpl; intros H; constructor;
    apply orb_false_iff in H; destruct H; auto.
Qed.

Section NoArray.

Variable lib : NumLib.
Variables Xa Ya : list (list fval).

Lemma no_array_collect (l : list Expr) (vs : list pyval) :
  Forall (fun e => gives_no_array (f_lamb lib e Xa Ya)) l ->
  collect (map (fun a => f_lamb lib a Xa Ya) l) = Ok vs ->
  Forall (fun v => no_array v = true) vs.
Proof.
  intros H E. apply collect_Ok in E. revert vs E.
  induction H as [|x r Hx Hr IH]; intros vs E; inversion E; subst; constructor.
  - match goal with K : f_lamb _ _ _ _ = Ok _ |- _ => rewrite K in Hx end. exact Hx.
  - apply IH. assumption.
Qed.

Lemma f_lamb_no_array (e : Expr) :
  mentions "x" e = false -> mentions "y" e = false ->
  gives_no_array (f_lamb lib e Xa Ya).
Proof.
  induction e using Expr_ind'; intros Mx My; cbn [mentions] in Mx, My;
    cbn [f_lamb]; try exact I; try reflexivity.
  - rewrite (String.eqb_sym s "x"), Mx, (String.eqb_sym s "y"), My. reflexivity.
  - apply absent_in_list in Mx, My.
    assert (F : Forall (fun e => gives_no_array (f_lamb lib e Xa Ya)) l).
    { clear -H Mx My. induction H; inversion Mx; inversion My; subst; constructor; auto. }
    destruct (collect _) as [vs| |] eqn:C; simpl; auto.
    apply no_array_vfold. apply (@no_array_collect l vs F C).
  - apply absent_in_list in Mx, My.
    assert (F : Forall (fun e => gives_no_array (f_lamb lib e Xa Ya)) l).
    { clear -H Mx My. induction H; inversion Mx; inversion My; subst; constructor; auto. }
    destruct (collect _) as [vs| |] eqn:C; simpl; auto.
    apply no_array_vfold. apply (@no_array_collect l vs F C).
  - apply orb_false_iff in Mx, My. destruct Mx as [Mx1 Mx2], My as [My1 My2].
    specialize (IHe1 Mx1 My1). specialize (IHe2 Mx2 My2).
    assert (G : gives_no_array
                  (vs <- collect [f_lamb lib e1 Xa Ya; f_lamb lib e2 Xa Ya] ;;
                   match vs with
                   | [vb; vx] => vbin (lib_pow lib) vb vx
                   | _ => Unmodelled
                   end)).
    { simpl. destruct (f_lamb lib e1 Xa Ya) as [vb| |], (f_lamb lib e2 Xa Ya) as [vx| |];
        simpl; auto. apply no_array_vbin; assumption. }
    destruct e2; try exact G.
    destruct flt; [exact G|].
    destruct (f_lamb lib e1 Xa Ya) as [vb| |]; simpl; auto.
    destruct (Qeq_bool q (1 # 2)); [apply no_array_vfun; assumption|].
    destruct (Qeq_bool q (-1 # 2)).
    + pose proof (@no_array_vfun (np_sqrt lib) vb IHe1) as S.
      destruct (vfun (np_sqrt lib) vb) as [r| |]; simpl; auto.
      apply no_array_vpow_int. exact S.
    + destruct (q_is_int q); [apply no_array_vpow_int; assumption|].
      apply no_array_vbin; [assumption | reflexivity].
  - specialize (IHe Mx My).
    destruct (f_lamb lib e Xa Ya) as [va| |]; simpl; auto.
    apply no_array_vfun. exact IHe.
Qed.

End NoArray.



Lemma floats_vbin op a b :
  is_float a = true -> is_float b = true -> raises_nothing (vbin op a b).
Proof.
  destruct a as [x|m| |], b as [y|n| |]; simpl; try discriminate; auto.
  destruct (same_shape m n); simpl; auto.
Qed.

Lemma floats_vfun f a : is_float a = true -> raises_nothing (vfun f a).
Proof. destruct a; simpl; try discriminate; auto. Qed.

Lemma floats_vpow_int a n : is_float a = true -> raises_nothing (vpow_int a n).
Proof.
  destruct a as [x|m| |]; simpl; try discriminate; auto.
  destruct x; simpl; auto. destruct (_ && _); simpl; auto.
Qed.

Lemma floats_fold op (vs : list pyval) : forall acc,
  raises_nothing acc -> Forall (fun v => is_float v = true) vs ->
  raises_nothing (fold_left (fun acc w => a <- acc ;; vbin op a w) vs acc).
Proof.
  induction vs as [|v vs IH]; intros acc Ha Hvs; simpl; [exact Ha|].
  inversion Hvs; subst. apply IH; [|assumption].
  destruct acc as [a| |]; simpl; auto. apply floats_vbin; assumption.
Qed.

Lemma floats_vfold op unit vs :
  Forall (fun v => is_float v = true) vs -> raises_nothing (vfold op unit vs).
Proof.
  intros H. destruct vs as [|v vs]; simpl; [reflexivity|].
  inversion H; subst. apply floats_fold; assumption.
Qed.

Lemma floats_collect (os : list (outcome pyval)) :
  Forall raises_nothing os ->
  match collect os with
  | Ok vs => Forall (fun v => is_float v = true) vs
  | Raise _ => False
  | Unmodelled => True
  end.
Proof.
  induction 1 as [|o r Ho Hr IH]; simpl; [constructor|].
  destruct o as [a| |]; simpl in Ho; [| contradiction |];
    destruct (collect r) as [l| |]; auto.
Qed.

Section NoException.

Variable lib : NumLib.
Variables Xa Ya : list (list fval).

Lemma f_lamb_raises_nothing (e : Expr) :
  symbols_in ["x"; "y"] e = true -> has_undef e = false ->
  raises_nothing (f_lamb lib e Xa Ya).
Proof.
  induction e using Expr_ind'; intros S U; simpl in S, U |- *; auto;
    try discriminate.
  - unfold in_names in S. simpl in S.
    destruct (String.eqb s "x"); [reflexivity|].
    destruct (String.eqb s "y"); [reflexivity | discriminate].
  - assert (F : Forall raises_nothing (map (fun a => f_lamb lib a Xa Ya) l)).
    { clear -H S U. induction H as [|a r Ha Hr IH]; simpl in *; constructor;
        apply andb_true_iff in S; apply orb_false_iff in U;
        destruct S, U; auto. }
    apply floats_collect in F.
    destruct (collect _) as [vs| |]; simpl; auto. apply floats_vfold, F.
  - assert (F : Forall raises_nothing (map (fun a => f_lamb lib a Xa Ya) l)).
    { clear -H S U. induction H as [|a r Ha Hr IH]; simpl in *; constructor;
        apply andb_true_iff in S; apply orb_false_iff in U;
        destruct S, U; auto. }
    apply floats_collect in F.
    destruct (collect _) as [vs| |]; simpl; auto. apply floats_vfold, F.
  - apply andb_true_iff in S. apply orb_false_iff in U.
    destruct S as [S1 S2], U as [U1 U2].
    specialize (IHe1 S1 U1). specialize (IHe2 S2 U2).
    assert (G : raises_nothing
                  (vs <- collect [f_lamb lib e1 Xa Ya; f_lamb lib e2 Xa Ya] ;;
                   match vs with
                   | [vb; vx] => vbin (lib_pow lib) vb vx
                   | _ => Unmodelled
                   end)).
    { simpl. destruct (f_lamb lib e1 Xa Ya) as [vb| |], (f_lamb lib e2 Xa Ya) as [vx| |];
        simpl in *; auto. apply floats_vbin; assumption. }
    destruct e2; try exact G.
    destruct flt; [exact G|].
    destruct (f_lamb lib e1 Xa Ya) as [vb| |]; simpl in *; auto.
    destruct (Qeq_bool q (1 # 2)); [apply floats_vfun; assumption|].
    destruct (Qeq_bool q (-1 # 2)).
    + pose proof (@floats_vfun (np_sqrt lib) vb IHe1) as R.
      destruct (vfun (np_sqrt lib) vb) as [r| |]; simpl in *; auto.
      apply floats_vpow_int. exact R.
    + destruct (q_is_int q); [apply floats_vpow_int; assumption|].
      apply floats_vbin; [assumption | reflexivity].
  - specialize (IHe S U).
    destruct (f_lamb lib e Xa Ya) as [va| |]; simpl in *; auto.
    apply floats_vfun. exact IHe.
Qed.

End NoException.



Lemma symbolic_vbin op a b r :
  is_float a && is_float b = false -> vbin op a b = Ok r -> is_float r = false.
Proof.
  destruct a as [x|m| |], b as [y|n| |]; simpl; intros H E;
    try discriminate; inversion E; subst; reflexivity.
Qed.

Lemma symbolic_vfun f a r : is_float a = false -> vfun f a = Ok r -> is_float r = false.
Proof. destruct a; simpl; intros H E; discriminate. Qed.

Lemma symbolic_vpow_int a n r :
  is_float a = false -> vpow_int a n = Ok r -> is_float r = false.
Proof.
  destruct a; simpl; intros H E; try discriminate; inversion E; subst; reflexivity.
Qed.

Lemma symbolic_fold op (vs : list pyval) : forall a r,
  is_float a && forallb is_float vs = false ->
  fold_left (fun acc w => a <- acc ;; vbin op a w) vs (Ok a) = Ok r ->
  is_float r = false.
Proof.
  induction vs as [|v vs IH]; intros a r H E; simpl in *.
  - rewrite andb_true_r in H. inversion E; subst. exact H.
  - destruct (vbin op a v) as [a1| |] eqn:V.
    + apply (IH a1 r); [|exact E].
      destruct (is_float a && is_float v) eqn:F.
      * apply andb_true_iff in F. destruct F as [Fa Fv].
        rewrite Fa, Fv in H. simpl in H. rewrite H. apply andb_false_r.
      * rewrite (@symbolic_vbin op a v a1 F V). reflexivity.
    + rewrite fold_vbin_not_Ok in E by discriminate. discriminate.
    + rewrite fold_vbin_not_Ok in E by discriminate. discriminate.
Qed.

Lemma symbolic_vfold op unit vs r :
  forallb is_float vs = false -> vfold op unit vs = Ok r -> is_float r = false.
Proof.
  intros H E. destruct vs as [|v vs]; [discriminate|].
  simpl in E. apply (@symbolic_fold op vs v r H E).
Qed.

Section Leftover.

Variable lib : NumLib.
Variables Xa Ya : list (list fval).
Variable s : string.
Hypothesis not_x : String.eqb s "x" = false.
Hypothesis not_y : String.eqb s "y" = false.

Lemma symbolic_collect (l : list Expr) (vs : list pyval) :
  Forall (fun e => mentions s e = true ->
                   forall v, f_lamb lib e Xa Ya = Ok v -> is_float v = false) l ->
  existsb (mentions s) l = true ->
  collect (map (fun a => f_lamb lib a Xa Ya) l) = Ok vs ->
  forallb is_float vs = false.
Proof.
  intros H M E. apply collect_Ok in E. revert vs E.
  induction H as [|x r Hx Hr IH]; intros vs E; [discriminate|].
  inversion E as [|? v ? vs' Ev E']; subst. simpl in M |- *.
  destruct (mentions s x) eqn:Mx.
  - rewrite (Hx eq_refl v Ev). reflexivity.
  - simpl in M. rewrite (IH M vs' E'). apply andb_false_r.
Qed.

Lemma f_lamb_symbolic (e : Expr) :
  mentions s e = true ->
  forall v, f_lamb lib e Xa Ya = Ok v -> is_float v = false.
Proof.
  induction e using Expr_ind'; intros M v E; cbn [mentions] in M; cbn [f_lamb] in E;
    try discriminate.
  - apply String.eqb_eq in M. subst s0. rewrite not_x, not_y in E.
    inversion E; subst. reflexivity.
  - destruct (collect _) as [vs| |] eqn:C; try discriminate. simpl in E.
    apply (@symbolic_vfold fadd (Fin 0) vs v); [|exact E].
    apply (@symbolic_collect l vs H M C).
  - destruct (collect _) as [vs| |] eqn:C; try discriminate. simpl in E.
    apply (@symbolic_vfold fmul (Fin 1) vs v); [|exact E].
    apply (@symbolic_collect l vs H M C).
  - assert (G : forall w,
               (vs <- collect [f_lamb lib e1 Xa Ya; f_lamb lib e2 Xa Ya] ;;
                match vs with
                | [vb; vx] => vbin (lib_pow lib) vb vx
                | _ => Unmodelled
                end) = Ok w -> is_float w = false).
    { intros w Ew. destruct (collect [_; _]) as [vs| |] eqn:C; try discriminate.
      simpl in Ew. apply collect_Ok in C.
      inversion C as [|? vb ? ? C1 C']; subst.
      inversion C' as [|? vx ? ? C2 C'']; subst. inversion C''; subst.
      apply (@symbolic_vbin (lib_pow lib) vb vx w); [|exact Ew].
      apply orb_true_iff in M. destruct M as [M|M].
      - rewrite (IHe1 M vb C1). reflexivity.
      - rewrite (IHe2 M vx C2). apply andb_false_r. }
    destruct e2; try (apply G, E).
    destruct flt; [apply G, E|].
    cbn [mentions] in M. rewrite orb_false_r in M.
    destruct (f_lamb lib e1 Xa Ya) as [vb| |] eqn:Eb; try discriminate.
    simpl in E. specialize (IHe1 M vb eq_refl).
    destruct (Qeq_bool q (1 # 2)); [apply (@symbolic_vfun _ vb v IHe1 E)|].
    destruct (Qeq_bool q (-1 # 2)).
    + destruct (vfun (np_sqrt lib) vb) as [r| |] eqn:S; try discriminate.
      simpl in E.
      apply (@symbolic_vpow_int r _ v (@symbolic_vfun _ vb r IHe1 S) E).
    + destruct (q_is_int q); [apply (@symbolic_vpow_int vb _ v IHe1 E)|].
      apply (@symbolic_vbin (lib_pow lib) vb (PNum (Fin q)) v); [|exact E].
      rewrite IHe1. reflexivity.
  - destruct (f_lamb lib e Xa Ya) as [va| |] eqn:A; try discriminate.
    simpl in E. apply (@symbolic_vfun _ va v (IHe M va eq_refl) E).
Qed.

End Leftover.



(* ===================================================================== *)
(** * The shape and the symmetries of the height field *)
(* ===================================================================== *)

Lemma rows_of_aligned (a m : list (list fval)) (n : nat) :
  same_shape a m = true -> Forall (fun r => List.length r = n) m ->
  List.length a = List.length m /\ Forall (fun r => List.length r = n) a.
Proof.
  rewrite same_shape_spec.
  induction 1 as [|r s a m E _ IH]; intros F; [split; [reflexivity | constructor]|].
  inversion F; subst. destruct (IH H2) as [L R].
  split; [simpl; lia | constructor; [exact E | exact R]].
Qed.

Lemma length_concat_rows (a : list (list fval)) (n : nat) :
  Forall (fun r => List.length r = n) a ->
  List.length (List.concat a) = (List.length a * n)%nat.
Proof.
  induction 1 as [|r a E _ IH]; [reflexivity|].
  simpl. rewrite length_app, IH, E. reflexivity.
Qed.

Lemma X_rows : Forall (fun r => List.length r = 60%nat) X.
Proof.
  apply Forall_forall. intros r Hr.
  assert (G : forallb (fun r => (List.length r =? 60)%nat) X = true)
    by (vm_compute; reflexivity).
  rewrite forallb_forall in G. apply Nat.eqb_eq, G, Hr.
Qed.

Lemma aligned_array_is_60_by_60 (a : list (list fval)) :
  same_shape a X = true ->
  shape a = (60, 60)%nat
  /\ Forall (fun r => List.length r = 60%nat) a
  /\ List.length (List.concat a) = 3600%nat.
Proof.
  intros S. destruct (@rows_of_aligned a X 60%nat S X_rows) as [L R].
  change (List.length X) with 60%nat in L.
  split.
  - unfold shape. rewrite L. destruct a as [|r a]; [discriminate|].
    inversion R; subst. f_equal. assumption.
  - split; [exact R|]. rewrite (@length_concat_rows a 60%nat R), L. reflexivity.
Qed.



Section Independence.

Variable lib : NumLib.
Variables Xa Ya Xb Yb : list (list fval).

Lemma f_lamb_ext (e : Expr) :
  (mentions "x" e = true -> Xa = Xb) ->
  (mentions "y" e = true -> Ya = Yb) ->
  f_lamb lib e Xa Ya = f_lamb lib e Xb Yb.
Proof.
  induction e using Expr_ind'; intros Hx Hy; cbn [mentions] in Hx, Hy;
    cbn [f_lamb]; try reflexivity.
  - destruct (String.eqb s "x") eqn:Ex.
    { rewrite Hx; [reflexivity | rewrite String.eqb_sym; exact Ex]. }
    destruct (String.eqb s "y") eqn:Ey; [|reflexivity].
    rewrite Hy; [reflexivity | rewrite String.eqb_sym; exact Ey].
  - assert (M : map (fun a => f_lamb lib a Xa Ya) l
                = map (fun a => f_lamb lib a Xb Yb) l).
    { clear -H Hx Hy. induction H as [|a r Ha Hr IH]; [reflexivity|].
      simpl in Hx, Hy. simpl. f_equal.
      - apply Ha; intros M; [apply Hx | apply Hy]; rewrite M; reflexivity.
      - apply IH; intros M; [apply Hx | apply Hy]; rewrite M; apply orb_true_r. }
    rewrite M. reflexivity.
  - assert (M : map (fun a => f_lamb lib a Xa Ya) l
                = map (fun a => f_lamb lib a Xb Yb) l).
    { clear -H Hx Hy. induction H as [|a r Ha Hr IH]; [reflexivity|].
      simpl in Hx, Hy. simpl. f_equal.
      - apply Ha; intros M; [apply Hx | apply Hy]; rewrite M; reflexivity.
      - apply IH; intros M; [apply Hx | apply Hy]; rewrite M; apply orb_true_r. }
    rewrite M. reflexivity.
  - assert (E1 : f_lamb lib e1 Xa Ya = f_lamb lib e1 Xb Yb).
    { apply IHe1; intros M; [apply Hx | apply Hy]; rewrite M; reflexivity. }
    assert (E2 : f_lamb lib e2 Xa Ya = f_lamb lib e2 Xb Yb).
    { apply IHe2; intros M; [apply Hx | apply Hy]; rewrite M; apply orb_true_r. }
    rewrite E1, E2. reflexivity.
  - rewrite IHe by assumption. reflexivity.
Qed.

End Independence.

Lemma entry_X (i j : nat) :
  (i < 60)%nat -> (j < 60)%nat ->
  entry i j X = Fin (nth j vals 0) /\ entry i j Y = Fin (nth i vals 0)
  /\ in_bounds i j X.
Proof.
  intros I J.
  assert (L : List.length vals = 60%nat) by reflexivity.
  destruct (@entry_meshgrid vals vals i j) as [A B]; [lia | lia |].
  split; [exact A|]. split; [exact B|].
  apply in_bounds_meshgrid; lia.
Qed.

Lemma rows_agree_without_y (lib : NumLib) (e : Expr) (a : list (list fval))
      (i i' j : nat) :
  f_lamb lib e X Y = Ok (PArr a) -> mentions "y" e = false ->
  (i < 60)%nat -> (i' < 60)%nat -> (j < 60)%nat ->
  entry i j a = entry i' j a.
Proof.
  intros E M I I' J.
  destruct (@entry_X i j I J) as (A & _ & B). destruct (@entry_X i' j I' J) as (A' & _ & B').
  pose proof (@f_lamb_here lib X Y (eq_refl : same_shape Y X = true) i j B e _ E) as P.
  pose proof (@f_lamb_here lib X Y (eq_refl : same_shape Y X = true) i' j B' e _ E) as P'.
  rewrite (@f_lamb_ext lib (point_grid i j X) (point_grid i j Y)
             (point_grid i' j X) (point_grid i' j Y) e) in P.
  - rewrite P' in P. simpl in P. inversion P. reflexivity.
  - intros _. unfold point_grid. rewrite A, A'. reflexivity.
  - rewrite M. discriminate.
Qed.

Lemma columns_agree_without_x (lib : NumLib) (e : Expr) (a : list (list fval))
      (i j j' : nat) :
  f_lamb lib e X Y = Ok (PArr a) -> mentions "x" e = false ->
  (i < 60)%nat -> (j < 60)%nat -> (j' < 60)%nat ->
  entry i j a = entry i j' a.
Proof.
  intros E M I J J'.
  destruct (@entry_X i j I J) as (_ & A & B). destruct (@entry_X i j' I J') as (_ & A' & B').
  pose proof (@f_lamb_here lib X Y (eq_refl : same_shape Y X = true) i j B e _ E) as P.
  pose proof (@f_lamb_here lib X Y (eq_refl : same_shape Y X = true) i j' B' e _ E) as P'.
  rewrite (@f_lamb_ext lib (point_grid i j X) (point_grid i j Y)
             (point_grid i j' X) (point_grid i j' Y) e) in P.
  - rewrite P' in P. simpl in P. inversion P. reflexivity.
  - rewrite M. discriminate.
  - intros _. unfold point_grid. rewrite A, A'. reflexivity.
Qed.



(* ===================================================================== *)
(** * The page of a run *)
(* ===================================================================== *)

Lemma classify_on_grid (a : list (list fval)) :
  same_shape a X = true ->
  classify (List.concat a) = Ok (nan_classify (List.concat a)).
Proof.
  intros S. destruct (@aligned_array_is_60_by_60 a S) as (_ & _ & L).
  destruct (List.concat a) as [|v l]; [discriminate|].
  apply classify_ignores_nan_only.
Qed.

Lemma topic_stage_on_array (latex : Expr -> string) (inp : Input) (fe : Expr)
      (a : list (list fval)) (out : list Elem) :
  same_shape a X = true ->
  topic_stage latex inp fe (PArr a) out
  = Next (out ++ topic_page latex (topic inp) fe a)%list tt.
Proof.
  intros S. unfold topic_stage, topic_page.
  destruct (topic inp);
    cbv [bind emit show_surface st_plotly_chart plot_surface fig_z call_lib
         surface_explanation elements ret];
    try rewrite (classify_on_grid a S); cbv [obind ret];
    rewrite <- !app_assoc; reflexivity.
Qed.

Lemma app_on_array (lib : NumLib) (latex : Expr -> string) (inp : Input)
      (f : Expr) (a : list (list fval)) :
  sympify (func_input inp) allowed_funcs = Ok f ->
  f_lamb lib (f_eval inp f) X Y = Ok (PArr a) ->
  app lib latex inp
  = ((header_elems inp ++ selector_elems inp
        ++ topic_page latex (topic inp) (f_eval inp f) a)%list, Completed).
Proof.
  intros P R. rewrite (@app_evaluated lib latex inp f (PArr a) P R).
  unfold run.
  rewrite (@topic_stage_on_array latex inp (f_eval inp f) a _
             (@array_height_field_is_aligned lib _ a R)).
  rewrite <- app_assoc. reflexivity.
Qed.





(* ===================================================================== *)
(** * Every run, case by case *)
(* ===================================================================== *)

Lemma topic_stage_cases (latex : Expr -> string) (inp : Input) (fe : Expr)
      (Za : pyval) (out : list Elem) :
  exists ext,
    (topic_stage latex inp fe Za out = Halt (out ++ ext)%list NotModelled
     \/ (topic_stage latex inp fe Za out = Next (out ++ ext)%list tt
         /\ List.length (filter is_chart ext) = 1%nat))
    /\ forallb is_topic_elem ext = true.
Proof.
  unfold topic_stage.
  destruct (topic inp), Za as [v|a| |];
    cbv [bind emit show_surface st_plotly_chart plot_surface fig_z call_lib
         surface_explanation elements ret leave_model];
    try (eexists; split;
         [left; rewrite <- ?app_assoc; cbn [app]; reflexivity | reflexivity]);
    try (eexists; split;
         [right; split; [rewrite <- ?app_assoc; cbn [app]; reflexivity | reflexivity]
         | reflexivity]).
  destruct (classify (List.concat a)) as [c| |]; cbv [obind ret leave_model].
  - eexists; split;
      [right; split; [rewrite <- ?app_assoc; cbn [app]; reflexivity | reflexivity]
      | reflexivity].
  - eexists; split;
      [left; rewrite <- ?app_assoc; cbn [app]; reflexivity | reflexivity].
  - eexists; split;
      [left; rewrite <- ?app_assoc; cbn [app]; reflexivity | reflexivity].
Qed.

Lemma app_parse_unmodelled (lib : NumLib) (latex : Expr -> string) (inp : Input) :
  sympify (func_input inp) allowed_funcs = Unmodelled ->
  app lib latex inp = (header_elems inp, NotModelled).
Proof.
  intros P. unfold app, run, script, bind, parse_stage, try_except.
  rewrite P. reflexivity.
Qed.

Lemma app_eval_unmodelled (lib : NumLib) (latex : Expr -> string) (inp : Input)
      (f : Expr) :
  sympify (func_input inp) allowed_funcs = Ok f ->
  f_lamb lib (f_eval inp f) X Y = Unmodelled ->
  app lib latex inp = ((header_elems inp ++ selector_elems inp)%list, NotModelled).
Proof.
  intros P R. unfold app, run, script, bind, parse_stage, try_except, slice_stage,
    eval_stage.
  rewrite P. unfold selector_elems, f_eval in *.
  destruct (var_type inp); cbv [header emit bind ret topic_selector app];
    rewrite R; reflexivity.
Qed.

(** The five ways in which a run ends. *)
Lemma app_cases (lib : NumLib) (latex : Expr -> string) (inp : Input) :
  (raises (sympify (func_input inp) allowed_funcs) = true
   /\ app lib latex inp
      = ((header_elems inp ++ [EError parse_error_text; EMarkdown parse_help_text])%list,
         Stopped))
  \/ (sympify (func_input inp) allowed_funcs = Unmodelled
      /\ app lib latex inp = (header_elems inp, NotModelled))
  \/ exists f,
       sympify (func_input inp) allowed_funcs = Ok f
       /\ (app lib latex inp
           = ((header_elems inp ++ selector_elems inp ++ [EError eval_error_text])%list,
              Stopped)
           \/ exists ext,
                forallb is_topic_elem ext = true
                /\ (app lib latex inp
                    = ((header_elems inp ++ selector_elems inp ++ ext)%list, NotModelled)
                    \/ (app lib latex inp
                        = ((header_elems inp ++ selector_elems inp ++ ext)%list, Completed)
                        /\ List.length (filter is_chart ext) = 1%nat))).
Proof.
  destruct (sympify (func_input inp) allowed_funcs) as [f|e|] eqn:P.
  - right. right. exists f. split; [reflexivity|].
    destruct (f_lamb lib (f_eval inp f) X Y) as [Za|e|] eqn:R.
    + right. rewrite (@app_evaluated lib latex inp f Za P R). unfold run.
      destruct (@topic_stage_cases latex inp (f_eval inp f) Za
                  (header_elems inp ++ selector_elems inp)%list) as (ext & [H|[H C]] & T);
        exists ext; (split; [exact T|]); rewrite H, <- app_assoc.
      * left. reflexivity.
      * right. split; [reflexivity | exact C].
    + left. apply (@app_eval_error lib latex inp f P). rewrite R. reflexivity.
    + right. exists []. split; [reflexivity|]. left.
      rewrite app_nil_r. apply (@app_eval_unmodelled lib latex inp f P R).
  - left. split; [reflexivity|]. apply app_parse_error. rewrite P. reflexivity.
  - right. left. split; [reflexivity|]. apply app_parse_unmodelled, P.
Qed.

Lemma topic_elems_no_widget (ext : list Elem) :
  forallb is_topic_elem ext = true ->
  existsb is_error ext = false
  /\ existsb is_slider ext = false
  /\ existsb is_topic_selector ext = false
  /\ filter is_error ext = [].
Proof.
  induction ext as [|el r IH]; [repeat split|].
  simpl. intros H. apply andb_true_iff in H. destruct H as [H1 H2].
  destruct (IH H2) as (A & B & C & D).
  rewrite A, B, C, D. destruct el; try discriminate; repeat split.
Qed.

Lemma any_error_is_error (page : list Elem) :
  any_error page = existsb is_error page.
Proof. reflexivity. Qed.

Lemma chart_count (ext : list Elem) :
  List.length (filter is_chart ext) = 1%nat -> existsb is_chart ext = true.
Proof.
  induction ext as [|el r IH]; [discriminate|].
  simpl. destruct (is_chart el); [reflexivity|]. exact IH.
Qed.

(** X11: on every page the four elements of the header come first.  When
    parsing returns an expression, the topic selector is on the page, and
    the slider is on it exactly in three-variable mode; when parsing
    raises, the page offers neither. *)
Theorem widgets_follow_the_parse
        (lib : NumLib) (latex : Expr -> string) (inp : Input) :
  firstn 4 (fst (app lib latex inp)) = header_elems inp
  /\ (forall f, sympify (func_input inp) allowed_funcs = Ok f ->
       existsb is_topic_selector (fst (app lib latex inp)) = true
       /\ existsb is_slider (fst (app lib latex inp))
          = match var_type inp with
            | ThreeVariables => true
            | TwoVariables => false
            end)
  /\ (raises (sympify (func_input inp) allowed_funcs) = true ->
      existsb is_topic_selector (fst (app lib latex inp)) = false
      /\ existsb is_slider (fst (app lib latex inp)) = false).
Proof.
  destruct (app_cases lib latex inp)
    as [[P A] | [[P A] | (f & P & [A | (ext & T & [A | [A _]])])]];
    rewrite A; cbn [fst];
    try (destruct (topic_elems_no_widget ext T) as (_ & S1 & S2 & _));
    rewrite ?P;
    (split; [unfold header_elems, selector_elems; reflexivity|]);
    (split; [intros g G | intros G]); try discriminate;
    try (destruct (sympify (func_input inp) allowed_funcs); discriminate);
    unfold header_elems, selector_elems; destruct (var_type inp);
    cbn [app existsb is_topic_selector is_slider orb];
    rewrite ?existsb_app, ?S1, ?S2; split; reflexivity.
Qed.

(** A run in three-variable mode on the text [sin x], which is not an
    expression, and a run on [x*z]. *)
Lemma widgets_follow_the_parse_witness :
  (raises (sympify (func_input (interaction ThreeVariables "sin x" Gradient))
                   allowed_funcs) = true
   /\ existsb is_slider
        (fst (app null_lib null_latex (interaction ThreeVariables "sin x" Gradient)))
      = false)
  /\ (sympify (func_input (interaction ThreeVariables "x*z" Gradient)) allowed_funcs
      = Ok (Mul [Sym "x"; Sym "z"])
      /\ existsb is_slider
           (fst (app null_lib null_latex (interaction ThreeVariables "x*z" Gradient)))
         = true).
Proof.
  split.
  - split; [vm_compute; reflexivity|].
    destruct (widgets_follow_the_parse null_lib null_latex
                (interaction ThreeVariables "sin x" Gradient)) as (_ & _ & B).
    apply B. vm_compute. reflexivity.
  - split; [vm_compute; reflexivity|].
    destruct (widgets_follow_the_parse null_lib null_latex
                (interaction ThreeVariables "x*z" Gradient)) as (_ & A & _).
    destruct (A (Mul [Sym "x"; Sym "z"])) as [_ S]; [vm_compute; reflexivity|].
    exact S.
Defined.

(** X12: a run is ended by [st.stop()] exactly when its page shows an
    error message; no page shows more than one; a page with an error
    message holds no chart; and a run that reaches the last line of the
    script shows exactly one chart.  (A run that leaves the model is
    neither stopped nor completed.) *)
Theorem a_run_stops_exactly_on_an_error
        (lib : NumLib) (latex : Expr -> string) (inp : Input) :
  (snd (app lib latex inp) = Stopped <-> any_error (fst (app lib latex inp)) = true)
  /\ (List.length (filter is_error (fst (app lib latex inp))) <= 1)%nat
  /\ (any_error (fst (app lib latex inp)) = true ->
      existsb is_chart (fst (app lib latex inp)) = false)
  /\ (snd (app lib latex inp) = Completed ->
      List.length (filter is_chart (fst (app lib latex inp))) = 1%nat).
Proof.
  destruct (app_cases lib latex inp)
    as [[P A] | [[P A] | (f & P & [A | (ext & T & [A | [A C]])])]];
    rewrite A; cbn [fst snd]; rewrite any_error_is_error;
    try (destruct (topic_elems_no_widget ext T) as (S0 & _ & _ & S3));
    unfold header_elems, selector_elems; destruct (var_type inp);
    cbn [app existsb is_error is_chart orb filter List.length];
    rewrite ?existsb_app, ?filter_app, ?length_app, ?S0, ?S3, ?C;
    cbn [app existsb is_error is_chart orb filter List.length];
    repeat split; intros; try reflexivity; try discriminate; try lia.
Qed.

(** A run on [foo(x)], which stops, and a run on [x*y], which does not. *)
Lemma a_run_stops_exactly_on_an_error_witness :
  (snd (app null_lib null_latex (interaction TwoVariables "foo(x)" Visualization))
     = Stopped
   /\ any_error
        (fst (app null_lib null_latex (interaction TwoVariables "foo(x)" Visualization)))
      = true)
  /\ (snd (app null_lib null_latex (interaction TwoVariables "x*y" Visualization))
        = Completed
      /\ List.length
           (filter is_chart
              (fst (app null_lib null_latex
                      (interaction TwoVariables "x*y" Visualization)))) = 1%nat).
Proof.
  split.
  - split; [vm_compute; reflexivity|].
    destruct (a_run_stops_exactly_on_an_error null_lib null_latex
                (interaction TwoVariables "foo(x)" Visualization)) as ([A _] & _).
    apply A. vm_compute. reflexivity.
  - split; [vm_compute; reflexivity|].
    destruct (a_run_stops_exactly_on_an_error null_lib null_latex
                (interaction TwoVariables "x*y" Visualization)) as (_ & _ & _ & D).
    apply D. vm_compute. reflexivity.
Defined.

(* ===================================================================== *)
(** * What a run does not depend on *)
(* ===================================================================== *)

Lemma app_depends_on (lib : NumLib) (latex : Expr -> string) (inp1 inp2 : Input) :
  var_type inp1 = var_type inp2 ->
  func_input inp1 = func_input inp2 ->
  topic inp1 = topic inp2 ->
  (forall f, sympify (func_input inp1) allowed_funcs = Ok f ->
             f_eval inp1 f = f_eval inp2 f) ->
  app lib latex inp1 = app lib latex inp2.
Proof.
  intros V F T E.
  unfold app, run, script, header, parse_stage, slice_stage, topic_stage.
  rewrite <- V, <- F, <- T.
  destruct (sympify (func_input inp1) allowed_funcs) as [f| |];
    cbv [bind emit ret try_except st_stop leave_model]; try reflexivity.
  rewrite <- (E f eq_refl).
  destruct (var_type inp1); reflexivity.
Qed.

(** X13: the page depends on the mode, the text, the topic and, in
    three-variable mode, the slice value, and on nothing else: the numbers
    typed into the fields [x0], [y0], [dx] and [dy] are never used, and the
    slice value is not used in two-variable mode. *)
Theorem number_inputs_are_never_used
        (lib : NumLib) (latex : Expr -> string) (inp1 inp2 : Input) :
  var_type inp1 = var_type inp2 ->
  func_input inp1 = func_input inp2 ->
  topic inp1 = topic inp2 ->
  (var_type inp1 = ThreeVariables -> z0 inp1 == z0 inp2) ->
  app lib latex inp1 = app lib latex inp2.
Proof.
  intros V F T Z. apply app_depends_on; try assumption.
  intros f _. unfold f_eval, slice_value. rewrite <- V.
  destruct (var_type inp1); [reflexivity|].
  rewrite (Qred_complete _ _ (Z eq_refl)). reflexivity.
Qed.

(** Two interactions on the Differentials topic that differ in the numbers
    typed into [dx] and [dy], in [x0] and [y0], and in the slice value. *)
Lemma number_inputs_are_never_used_witness :
  var_type (interaction TwoVariables "x*y" Differentials)
    = var_type {| var_type := TwoVariables; func_input := "x*y";
                  topic := Differentials;
                  z0 := 3; x0 := 2; y0 := -4; dx := 5; dy := 7 # 2 |}
  /\ app null_lib null_latex (interaction TwoVariables "x*y" Differentials)
     = app null_lib null_latex
         {| var_type := TwoVariables; func_input := "x*y"; topic := Differentials;
            z0 := 3; x0 := 2; y0 := -4; dx := 5; dy := 7 # 2 |}.
Proof.
  split; [reflexivity|].
  apply number_inputs_are_never_used; try reflexivity.
  cbn [var_type interaction]. discriminate.
Defined.

Lemma q_eqb_refl (q : Q) : q_eqb q q = true.
Proof. unfold q_eqb. rewrite Z.eqb_refl, Pos.eqb_refl. reflexivity. Qed.

Lemma func_eqb_refl (f : Func) : func_eqb f f = true.
Proof. destruct f; reflexivity. Qed.

Lemma expr_eqb_refl (e : Expr) : expr_eqb e e = true.
Proof.
  induction e using Expr_ind'; simpl;
    rewrite ?q_eqb_refl, ?eqb_reflx, ?String.eqb_refl, ?func_eqb_refl, ?IHe1, ?IHe2, ?IHe;
    try reflexivity;
    induction H as [|x r Hx Hr IH]; simpl; try reflexivity; rewrite Hx, IH; reflexivity.
Qed.

Lemma exprs_eqb_refl (l : list Expr) : exprs_eqb l l = true.
Proof.
  induction l as [|x r IH]; simpl; [reflexivity|].
  rewrite expr_eqb_refl, IH. reflexivity.
Qed.

Lemma subs_absent (old : string) (new : Expr) (e : Expr) :
  mentions old e = false -> subs old new e = e.
Proof.
  induction e using Expr_ind'; intros M; cbn [mentions] in M; cbn [subs];
    try reflexivity.
  - rewrite String.eqb_sym, M. reflexivity.
  - assert (L : map (subs old new) l = l).
    { apply absent_in_list in M. clear -H M.
      induction H; inversion M; subst; simpl; [reflexivity | f_equal; auto]. }
    rewrite L, exprs_eqb_refl. reflexivity.
  - assert (L : map (subs old new) l = l).
    { apply absent_in_list in M. clear -H M.
      induction H; inversion M; subst; simpl; [reflexivity | f_equal; auto]. }
    rewrite L, exprs_eqb_refl. reflexivity.
  - apply orb_false_iff in M. destruct M as [M1 M2].
    rewrite (IHe1 M1), (IHe2 M2), !expr_eqb_refl. reflexivity.
  - rewrite (IHe M), expr_eqb_refl. reflexivity.
  - assert (L : map (subs old new) l = l).
    { apply absent_in_list in M. clear -H M.
      induction H; inversion M; subst; simpl; [reflexivity | f_equal; auto]. }
    rewrite L, exprs_eqb_refl. reflexivity.
Qed.

(** X14: when [z] does not occur in the function that was typed in, the
    slicer returns the expression itself and the slider has no effect: the
    page is the same at every slice value. *)
Theorem slider_moves_nothing_without_z
        (lib : NumLib) (latex : Expr -> string) (inp : Input) (f : Expr) (v : Q) :
  sympify (func_input inp) allowed_funcs = Ok f ->
  mentions "z" f = false ->
  f_eval inp f = f
  /\ app lib latex (with_slice inp v) = app lib latex inp.
Proof.
  intros P M.
  assert (E : forall i, f_eval i f = f).
  { intros i. unfold f_eval. destruct (var_type i); [reflexivity|].
    apply subs_absent, M. }
  split; [apply E|].
  apply app_depends_on; try reflexivity.
  intros g G. cbn [with_slice func_input] in G. rewrite P in G.
  inversion G; subst g. rewrite !E. reflexivity.
Qed.

(** The function [x*y] in three-variable mode, with the slider at 3. *)
Lemma slider_moves_nothing_without_z_witness :
  sympify (func_input (interaction ThreeVariables "x*y" Visualization)) allowed_funcs
    = Ok (Mul [Sym "x"; Sym "y"])
  /\ mentions "z" (Mul [Sym "x"; Sym "y"]) = false
  /\ app null_lib null_latex
       (with_slice (interaction ThreeVariables "x*y" Visualization) 3)
     = app null_lib null_latex (interaction ThreeVariables "x*y" Visualization).
Proof.
  split; [vm_compute; reflexivity|]. split; [reflexivity|].
  apply (@slider_moves_nothing_without_z null_lib null_latex
           (interaction ThreeVariables "x*y" Visualization)
           (Mul [Sym "x"; Sym "y"]) 3);
    [vm_compute; reflexivity | reflexivity].
Defined.

(** X15: the computed derivatives are printed by the Partial Derivatives
    and the Gradient topics only.  The Differentials topic computes them
    and shows the fixed formula [df = f_x dx + f_y dy]: its page, like that
    of the Meaning & Visualization topic, is the same whatever the printer
    of formulas returns. *)
Theorem derivatives_are_printed_by_two_topics_only
        (lib : NumLib) (latex latex' : Expr -> string) (inp : Input) :
  topic inp = Visualization \/ topic inp = Differentials ->
  app lib latex inp = app lib latex' inp.
Proof.
  intros T.
  unfold app, run, script, header, parse_stage, slice_stage, topic_stage.
  destruct (sympify (func_input inp) allowed_funcs) as [f| |];
    cbv [bind emit ret try_except st_stop leave_model]; try reflexivity.
  destruct T as [T|T]; rewrite T; reflexivity.
Qed.

(** The Differentials topic on [x*y] with two different printers. *)
Lemma derivatives_are_printed_by_two_topics_only_witness :
  app null_lib null_latex (interaction TwoVariables "x*y" Differentials)
  = app null_lib (fun _ => "2 x") (interaction TwoVariables "x*y" Differentials)
  /\ In (ELatex "df = f_x dx + f_y dy")
        (fst (app null_lib null_latex (interaction TwoVariables "x*y" Differentials))).
Proof.
  split.
  - apply derivatives_are_printed_by_two_topics_only. right. reflexivity.
  - vm_compute. tauto.
Defined.

(* ===================================================================== *)
(** * The default functions *)
(* ===================================================================== *)

Lemma same_shape_map2d_both (f g : fval -> fval) (m n : list (list fval)) :
  same_shape m n = true -> same_shape (map2d f m) (map2d g n) = true.
Proof.
  intros S. apply same_shape_trans with (n := m); [apply same_shape_map2d|].
  apply same_shape_trans with (n := n); [exact S|].
  apply same_shape_sym, same_shape_map2d.
Qed.

Lemma default_two_is_evaluated (lib : NumLib) :
  exists a,
    f_lamb lib (Add [Fn Fsin (Sym "x"); Fn Fcos (Sym "y")]) X Y = Ok (PArr a).
Proof.
  change (f_lamb lib (Add [Fn Fsin (Sym "x"); Fn Fcos (Sym "y")]) X Y)
    with (vbin fadd (PArr (map2d (np_apply lib Fsin) X))
                    (PArr (map2d (np_apply lib Fcos) Y))).
  cbn [vbin].
  rewrite (@same_shape_map2d_both (np_apply lib Fsin) (np_apply lib Fcos) X Y)
    by reflexivity.
  eexists. reflexivity.
Qed.

Lemma squares_are_evaluated (lib : NumLib) :
  exists a,
    f_lamb lib (Add [Pow (Sym "x") (Num 2 false); Pow (Sym "y") (Num 2 false)]) X Y
    = Ok (PArr a).
Proof.
  change (f_lamb lib (Add [Pow (Sym "x") (Num 2 false); Pow (Sym "y") (Num 2 false)])
            X Y)
    with (vbin fadd (PArr (map2d (fun v => fpow_int v 2) X))
                    (PArr (map2d (fun v => fpow_int v 2) Y))).
  cbn [vbin].
  rewrite (@same_shape_map2d_both (fun v => fpow_int v 2) (fun v => fpow_int v 2) X Y)
    by reflexivity.
  eexists. reflexivity.
Qed.

Lemma shifted_squares_are_evaluated (lib : NumLib) (c : Q) (f : bool) :
  exists a,
    f_lamb lib (Add [Num c f; Pow (Sym "x") (Num 2 false);
                     Pow (Sym "y") (Num 2 false)]) X Y
    = Ok (PArr a).
Proof.
  change (f_lamb lib (Add [Num c f; Pow (Sym "x") (Num 2 false);
                           Pow (Sym "y") (Num 2 false)]) X Y)
    with (vbin fadd (PArr (map2d (fadd (Fin c)) (map2d (fun v => fpow_int v 2) X)))
                    (PArr (map2d (fun v => fpow_int v 2) Y))).
  cbn [vbin].
  rewrite (@same_shape_map2d_both (fadd (Fin c)) (fun v => fpow_int v 2)
             (map2d (fun v => fpow_int v 2) X) Y)
    by (apply same_shape_trans with (n := X); [apply same_shape_map2d | reflexivity]).
  eexists. reflexivity.
Qed.

Lemma sliced_default (q : Q) :
  subs "z" (Num q true) sum_of_squares
    = Add [Pow (Sym "x") (Num 2 false); Pow (Sym "y") (Num 2 false)]
  \/ exists c f,
       subs "z" (Num q true) sum_of_squares
       = Add [Num c f; Pow (Sym "x") (Num 2 false); Pow (Sym "y") (Num 2 false)].
Proof.
  assert (P : exists c f, mk_pow (Num q true) (Num 2 false) = Num c f).
  { cbv [mk_pow pow_core q_is_int]. cbn. unfold mk_num.
    destruct (Qeq_bool q 0); cbn; destruct (Qeq_bool _ 0); eauto. }
  destruct P as (c & f & P).
  unfold sum_of_squares. cbn [subs map]. cbn [String.eqb Ascii.eqb Bool.eqb].
  rewrite P.
  cbn [exprs_eqb expr_eqb andb q_eqb Qnum Qden Z.eqb Pos.eqb Bool.eqb String.eqb
       Ascii.eqb].
  unfold mk_add.
  cbv - [nadd coef_is_zero of_coef].
  set (n := nadd (0, false) (c, f)). clearbody n.
  destruct (coef_is_zero n); [left; reflexivity|].
  right. exists (fst n), (snd n). reflexivity.
Qed.

(** X16: with the text field left at its default, the run reaches the last
    line of the script in both modes, in every topic and at every slice
    value: no error is shown and the page holds one chart. *)
Theorem default_functions_are_plotted
        (lib : NumLib) (latex : Expr -> string) (v : VarType) (t : Topic) (z : Q) :
  snd (app lib latex (with_slice (interaction v (default_func v) t) z)) = Completed
  /\ any_error (fst (app lib latex (with_slice (interaction v (default_func v) t) z)))
     = false
  /\ List.length
       (filter is_chart
          (fst (app lib latex (with_slice (interaction v (default_func v) t) z))))
     = 1%nat.
Proof.
  assert (G : exists f a,
             sympify (func_input (with_slice (interaction v (default_func v) t) z))
                     allowed_funcs = Ok f
             /\ f_lamb lib (f_eval (with_slice (interaction v (default_func v) t) z) f)
                       X Y = Ok (PArr a)).
  { destruct v.
    - destruct (default_two_is_evaluated lib) as [a A].
      exists (Add [Fn Fsin (Sym "x"); Fn Fcos (Sym "y")]), a.
      split; [vm_compute; reflexivity | exact A].
    - exists sum_of_squares.
      assert (S : sympify "x**2 + y**2 + z**2" allowed_funcs = Ok sum_of_squares)
        by (vm_compute; reflexivity).
      unfold f_eval, slice_value. cbn [with_slice interaction var_type func_input z0
                                       default_func].
      destruct (sliced_default (Qred z)) as [E | (c & f & E)]; rewrite E.
      + destruct (squares_are_evaluated lib) as [a A]. exists a. split; assumption.
      + destruct (shifted_squares_are_evaluated lib c f) as [a A]. exists a.
        split; assumption. }
  destruct G as (f & a & P & R).
  rewrite (@app_on_array lib latex _ f a P R). cbn [fst snd].
  unfold header_elems, selector_elems, topic_page.
  cbn [with_slice interaction var_type topic].
  destruct v, t; repeat split; reflexivity.
Qed.
